(** * acdc_dispatch: the boundary-search scaling engine

    A shallow embedding of [acdc_dispatch/data_processing.py]:

    - [find_extreme_points]: the loop that raises the load of the two-area
      grid in steps of 10 MW until the power flow stops converging;
    - [scale_down]: the quadratic envelope fit, the demand rescaling, the
      capacity split over the generators, the residual generator and the
      tie-line rating.

    Python floats are idealised as rationals ([Q], compared with [==]):
    rounding is not modelled, so "within floating tolerance" reads as
    equality of rationals.  A float that is not finite (the [inf] or [nan]
    that numpy produces when it divides by zero) is [None] in the type
    [F := option Q].  Every divisor of the source is an input value or a
    sum of input values, never the result of a division, so an operation
    with a non-finite operand always gives a non-finite result. *)

From Stdlib Require Import ZArith QArith Qabs Qfield Lqa Lia List String Bool Arith.
From Stdlib Require Import Ascii DecimalString DecimalNat.
Import ListNotations.
Open Scope Q_scope.

(** ** Python exceptions and results *)

Inductive exn : Type :=
| UnboundLocalError   (* a local variable read before assignment *)
| ValueError          (* numpy: max or min of an empty array *)
| LinAlgError.        (* numpy.linalg: singular matrix *)

Inductive result (A : Type) : Type :=
| Ok (a : A)
| Raise (e : exn).
Arguments Ok {A} a.
Arguments Raise {A} e.

Definition bind {A B : Type} (r : result A) (k : A -> result B) : result B :=
  match r with
  | Ok a => k a
  | Raise e => Raise e
  end.

Notation "x <- r ;; k" := (bind r (fun x => k))
  (at level 61, r at next level, right associativity).

(** A local variable that may not be bound yet. *)
Definition read {A : Type} (v : option A) : result A :=
  match v with
  | Some a => Ok a
  | None => Raise UnboundLocalError
  end.

(** ** The grid model, as far as [find_extreme_points] touches it *)

Module Grid.

Record load : Type := mkLoad { load_name : string; load_P : Q; load_Q : Q }.
Record generator : Type := mkGen { gen_name : string; gen_P : Q }.

Record grid : Type := mkGrid {
  get_loads : list load;
  get_generators : list generator
}.

(** [for load in grid.get_loads(): if load.name == '9_1': loadP = load.P;
    loadQ = load.Q]: the last load of that name wins, and the variables
    stay unbound when there is none. *)
Definition read_load (name : string) (g : grid) : option (Q * Q) :=
  fold_left
    (fun acc l =>
       if String.eqb (load_name l) name then Some (load_P l, load_Q l) else acc)
    (get_loads g) None.

(** [for g in grid.get_generators(): if g.name == '1_1': gen = g.P] *)
Definition read_generator (name : string) (g : grid) : option Q :=
  fold_left
    (fun acc x => if String.eqb (gen_name x) name then Some (gen_P x) else acc)
    (get_generators g) None.

(** [for load in grid.get_loads(): if load.name == '9_1': load.P = loadP;
    load.Q = loadQ] *)
Definition write_load (name : string) (p q : Q) (g : grid) : grid :=
  mkGrid
    (map (fun l => if String.eqb (load_name l) name
                   then mkLoad (load_name l) p q else l)
         (get_loads g))
    (get_generators g).

(** [for g in grid.get_generators(): if g.name == '1_1': g.P = gen] *)
Definition write_generator (name : string) (p : Q) (g : grid) : grid :=
  mkGrid
    (get_loads g)
    (map (fun x => if String.eqb (gen_name x) name
                   then mkGen (gen_name x) p else x)
         (get_generators g)).

End Grid.
Import Grid.

(** ** [find_extreme_points] *)

Module Prober.

(** The power flow as an oracle: [power_flow(grid).results.converged]. *)
Definition oracle : Type := grid -> bool.

Definition load_increment : Q := 10.

(** The local variables of the loop.  [load_h] and [load_no] are bound
    only by the assignments at the end of a converged iteration. *)
Record locals : Type := mkLocals {
  loadP : Q;
  loadQ : Q;
  gen : Q;
  load_h : option Q;
  load_no : option Q
}.

(** Lines 39-42: the increments at the head of the loop body. *)
Definition advance (inc : Q) (st : locals) : locals :=
  mkLocals (loadP st + inc) (loadQ st + inc)
           (if negb (Qle_bool 9999 (gen st)) then gen st + inc else gen st)
           (load_h st) (load_no st).

(** Lines 44-51: the candidate state written into the grid. *)
Definition candidate (g : grid) (st : locals) : grid :=
  write_generator "1_1" (gen st) (write_load "9_1" (loadP st) (loadQ st) g).

(** Lines 56-58: the roll-back on the first probe that does not converge. *)
Definition roll_back (inc : Q) (st : locals) : locals :=
  mkLocals (loadP st - inc) (loadQ st - inc) (gen st - inc)
           (load_h st) (load_no st).

(** Lines 60-63: the assignments that end a converged iteration. *)
Definition commit (st : locals) : locals :=
  mkLocals (loadP st) (loadQ st) (gen st) (Some (loadP st)) (Some 1500).

(** The [while True] loop of lines 37-63.  It has no bound of its own, so
    the model takes fuel: [None] means that the loop is still running when
    the fuel is spent.  The result is the grid and the locals at [break],
    with the number of power flows the loop has run. *)
Fixpoint probe_loop (fuel : nat) (pf : oracle) (inc : Q)
         (g : grid) (st : locals) (calls : nat) : option (grid * locals * nat) :=
  match fuel with
  | O => None
  | S fuel' =>
      let st' := advance inc st in
      let g' := candidate g st' in
      if pf g'
      then probe_loop fuel' pf inc g' (commit st') (S calls)
      else Some (g', roll_back inc st', S calls)
  end.

Record extremes : Type := mkExtremes { base : Q; high : Q; no_transfer : Q }.

(** What a run leaves behind: the value or exception of the call and the
    number of power flows it has solved. *)
Record run : Type := mkRun { outcome : result extremes; oracle_calls : nat }.

(** [find_extreme_points], on the grid that [add_grid_model] has loaded.
    Line 21 solves the base case once and ignores the verdict. *)
Definition find_extreme_points (fuel : nat) (pf : oracle) (g : grid) : option run :=
  let calls := 1%nat in
  match read_load "9_1" g with
  | None => Some (mkRun (Raise UnboundLocalError) calls)      (* line 33 *)
  | Some (p, q) =>
      let load_base := p in
      match read_generator "1_1" g with
      | None => Some (mkRun (Raise UnboundLocalError) calls)  (* line 41 *)
      | Some gn =>
          match probe_loop fuel pf load_increment g
                            (mkLocals p q gn None None) calls with
          | None => None
          | Some (_, st, calls') =>
              Some (mkRun (h <- read (load_h st) ;;
                           n <- read (load_no st) ;;
                           Ok (mkExtremes load_base h n))
                          calls')
          end
      end
  end.

(** The grid and the locals after [i] converged iterations. *)
Fixpoint after (i : nat) (inc : Q) (g : grid) (st : locals) : grid * locals :=
  match i with
  | O => (g, st)
  | S i' =>
      let '(g', st') := after i' inc g st in
      (candidate g' (advance inc st'), commit (advance inc st'))
  end.

(** The grid that probe number [i] (counted from 1) hands to the oracle. *)
Definition probe (i : nat) (inc : Q) (g : grid) (st : locals) : grid :=
  fst (after i inc g st).

(** The oracle accepts the probes before number [k] and rejects probe [k]. *)
Definition first_divergence (pf : oracle) (inc : Q) (g : grid) (st : locals)
           (k : nat) : Prop :=
  (forall i, (1 <= i < k)%nat -> pf (probe i inc g st) = true) /\
  pf (probe k inc g st) = false.

End Prober.

(** ** [scale_down] *)

Module Scaler.

(** *** Floats that may be non-finite *)

Definition F : Type := option Q.

Definition fin (q : Q) : F := Some q.

Definition lift2 (op : Q -> Q -> Q) (x y : F) : F :=
  match x, y with
  | Some a, Some b => Some (op a b)
  | _, _ => None
  end.

Definition Fadd : F -> F -> F := lift2 Qplus.
Definition Fsub : F -> F -> F := lift2 Qminus.
Definition Fmul : F -> F -> F := lift2 Qmult.

(** numpy's float division: a zero divisor gives [inf] or [nan] and a
    warning, not an exception. *)
Definition Fdiv (x y : F) : F :=
  match x, y with
  | Some a, Some b => if Qeq_bool b 0 then None else Some (a / b)
  | _, _ => None
  end.

Declare Scope F_scope.
Delimit Scope F_scope with F.
Notation "x + y" := (Fadd x y) : F_scope.
Notation "x - y" := (Fsub x y) : F_scope.
Notation "x * y" := (Fmul x y) : F_scope.
Notation "x / y" := (Fdiv x y) : F_scope.

(** Equality of floats up to the representation of the rational. *)
Definition Feq (x y : F) : Prop :=
  match x, y with
  | Some a, Some b => a == b
  | None, None => True
  | _, _ => False
  end.

(** *** numpy reductions *)

Definition np_sum (l : list Q) : Q := fold_left Qplus l 0.

(** [np.mean]: [nan] (with a warning) on an empty array. *)
Definition np_mean (l : list Q) : F :=
  (fin (np_sum l) / fin (inject_Z (Z.of_nat (List.length l))))%F.

Definition Qmax (x y : Q) : Q := if Qle_bool x y then y else x.
Definition Qmin (x y : Q) : Q := if Qle_bool x y then x else y.

(** [np.max] and [np.min]: [ValueError] on an empty array. *)
Definition np_max (l : list Q) : result Q :=
  match l with
  | [] => Raise ValueError
  | x :: l' => Ok (fold_left Qmax l' x)
  end.

Definition np_min (l : list Q) : result Q :=
  match l with
  | [] => Raise ValueError
  | x :: l' => Ok (fold_left Qmin l' x)
  end.

(** *** [np.linalg.solve] on a 3x3 system

    numpy is not part of the repository.  Its solver is modelled by what
    it computes in exact arithmetic: the unique solution of [A x = B]
    (here by Cramer's rule), and [LinAlgError] for a singular matrix. *)

Definition vec3 : Type := (Q * Q * Q)%type.
Definition mat3 : Type := (vec3 * vec3 * vec3)%type.

Definition det3 (A : mat3) : Q :=
  let '((a11, a12, a13), (a21, a22, a23), (a31, a32, a33)) := A in
  a11 * (a22 * a33 - a23 * a32)
  - a12 * (a21 * a33 - a23 * a31)
  + a13 * (a21 * a32 - a22 * a31).

Definition replace_column (j : nat) (A : mat3) (B : vec3) : mat3 :=
  let '((a11, a12, a13), (a21, a22, a23), (a31, a32, a33)) := A in
  let '(b1, b2, b3) := B in
  match j with
  | 0%nat => ((b1, a12, a13), (b2, a22, a23), (b3, a32, a33))
  | 1%nat => ((a11, b1, a13), (a21, b2, a23), (a31, b3, a33))
  | _ => ((a11, a12, b1), (a21, a22, b2), (a31, a32, b3))
  end.

Definition linalg_solve (A : mat3) (B : vec3) : result vec3 :=
  let d := det3 A in
  if Qeq_bool d 0 then Raise LinAlgError
  else Ok (det3 (replace_column 0 A B) / d,
           det3 (replace_column 1 A B) / d,
           det3 (replace_column 2 A B) / d).

(** The product [A x], to state what a solution is. *)
Definition mat_vec (A : mat3) (x : vec3) : vec3 :=
  let '((a11, a12, a13), (a21, a22, a23), (a31, a32, a33)) := A in
  let '(x1, x2, x3) := x in
  (a11 * x1 + a12 * x2 + a13 * x3,
   a21 * x1 + a22 * x2 + a23 * x3,
   a31 * x1 + a32 * x2 + a33 * x3).

Definition vec_eq (u v : vec3) : Prop :=
  let '(u1, u2, u3) := u in
  let '(v1, v2, v3) := v in
  u1 == v1 /\ u2 == v2 /\ u3 == v3.

(** *** The quadratic envelope, lines 141-155 *)

Definition point : Type := (Q * Q)%type.

(** Lines 144-146. *)
Definition system_matrix (points : point * point * point) : mat3 :=
  let '(p0, p1, p2) := points in
  ((fst p0 ^ 2, fst p0, 1),
   (fst p1 ^ 2, fst p1, 1),
   (fst p2 ^ 2, fst p2, 1)).

(** Line 148. *)
Definition right_hand_side (points : point * point * point) : vec3 :=
  let '(p0, p1, p2) := points in (snd p0, snd p1, snd p2).

(** Lines 144-152: [coefficients = np.linalg.solve(A, B)]. *)
Definition fit (points : point * point * point) : result vec3 :=
  linalg_solve (system_matrix points) (right_hand_side points).

(** Line 155: [a * x ** 2 + b * x + c]. *)
Definition evaluate (coefficients : vec3) (x : Q) : Q :=
  let '(a, b, c) := coefficients in a * x ^ 2 + b * x + c.

Definition evaluate_series (coefficients : vec3) (xs : list Q) : list F :=
  map (fun x => fin (evaluate coefficients x)) xs.

(** *** The list comprehensions of lines 108-172 *)

Definition zip {A B : Type} : list A -> list B -> list (A * B) := @combine A B.

(** Lines 114-115 and 123-124: [[x * cap / total for x in zone_total]]. *)
Definition capacity_share (cap total : Q) (zone_total : list F) : list F :=
  map (fun x => (x * fin cap / fin total)%F) zone_total.

(** Line 159: [[base_load * i / max_value for i in load1]]. *)
Definition scale_to_peak (base_load max_value : Q) (raw : list F) : list F :=
  map (fun i => (fin base_load * i / fin max_value)%F) raw.

(** Lines 162 and 164: [[j / i for i, j in zip(raw, scaled)]]. *)
Definition scaling_factor (raw scaled : list F) : list F :=
  map (fun '(i, j) => (j / i)%F) (zip raw scaled).

(** Lines 163, 165 and 166: [[i * j for i, j in zip(dispatch, factor)]]. *)
Definition apply_factor (dispatch factor : list F) : list F :=
  map (fun '(i, j) => (i * j)%F) (zip dispatch factor).

(** Line 167. *)
Definition factor_tie (scaling_factor1 scaling_factor2
                       total_dispatch_zone1 total_dispatch_zone2 : list F) : list F :=
  map (fun '(i, j, k, l) => ((i * k + j * l) / (fin 2 * (k + l)))%F)
      (zip (zip (zip scaling_factor1 scaling_factor2) total_dispatch_zone1)
           total_dispatch_zone2).

(** Line 168. *)
Definition p_tie_scaled (hourly_limit factor : list F) : list F :=
  map (fun '(m, n) => (m * n / fin 2)%F) (zip hourly_limit factor).

(** Line 172: the residual generator. *)
Definition residual (scaled_load1 scaled_load2 scaled_G1 scaled_G3 scaled_G4 : list F)
  : list F :=
  map (fun '(i, j, k, l, m) => (i + j - k - l - m)%F)
      (zip (zip (zip (zip scaled_load1 scaled_load2) scaled_G1) scaled_G3) scaled_G4).

(** *** The function *)

(** The day's data, as the downloads and the interface file give it:
    [load1] and [load2] are the zone sums of lines 86-87, [hourly_flow] and
    [hourly_limit] the hourly means of lines 105-106. *)
Record day : Type := mkDay {
  time_stamps : list string;
  load1 : list Q;
  load2 : list Q;
  hourly_flow : list Q;
  hourly_limit : list Q
}.

(** The dictionary that [scale_down] returns; each field carries the name
    of the variable behind the key. *)
Record scaled : Type := mkScaled {
  scaled_load1 : list F;     (* "load1" *)
  scaled_load2 : list F;     (* "load2" *)
  scaled_G1 : list F;        (* "G1" *)
  scaled_G2 : list F;        (* "G2" *)
  scaled_G3 : list F;        (* "G3" *)
  scaled_G4 : list F;        (* "G4" *)
  time : list string;        (* "time" *)
  tie_rate : list F          (* "tie_rate" *)
}.

Definition G1_cap : Q := 1300.
Definition G2_cap : Q := 1000.
Definition G3_cap : Q := 13001 # 2.   (* 6500.5 *)
Definition G4_cap : Q := 11099 # 2.   (* 5549.5 *)
Definition base_load : Q := 967.

Definition total_dispatch_zone1 (d : day) : list F :=
  map (fun '(i, j) => (fin i + fin j)%F) (zip (load1 d) (hourly_flow d)).

Definition total_dispatch_zone2 (d : day) : list F :=
  map (fun '(i, j) => (fin i - fin j)%F) (zip (load2 d) (hourly_flow d)).

(** Lines 128-141: the three calibration points, taken from the mean, the
    maximum and the minimum of [load2].  The mean of an empty array is
    [nan] and raises nothing; the maximum on line 132 then raises. *)
Definition calibration_points (d : day) (extremes : Prober.extremes)
  : result (point * point * point) :=
  let x1 := np_mean (load2 d) in
  x2 <- np_max (load2 d) ;;
  x3 <- np_min (load2 d) ;;
  match x1 with
  | None => Raise ValueError   (* not reached: [np_max] has raised *)
  | Some x1 =>
      Ok ((x1, Prober.base extremes),
          (x2, Prober.high extremes),
          (x3, Prober.no_transfer extremes))
  end.

Definition scale_down (d : day) (extremes : Prober.extremes) : result scaled :=
  let tdz1 := total_dispatch_zone1 d in
  let G1_dispatch := capacity_share G1_cap (G1_cap + G2_cap) tdz1 in
  let G2_dispatch := capacity_share G2_cap (G1_cap + G2_cap) tdz1 in
  let tdz2 := total_dispatch_zone2 d in
  let G3_dispatch := capacity_share G3_cap (G3_cap + G4_cap) tdz2 in
  let G4_dispatch := capacity_share G4_cap (G3_cap + G4_cap) tdz2 in
  points <- calibration_points d extremes ;;
  coefficients <- fit points ;;
  let sl2 := evaluate_series coefficients (load2 d) in
  max_value <- np_max (load1 d) ;;
  let sl1 := scale_to_peak base_load max_value (map fin (load1 d)) in
  let scaling_factor1 := scaling_factor (map fin (load1 d)) sl1 in
  let sG1 := apply_factor G1_dispatch scaling_factor1 in
  let scaling_factor2 := scaling_factor (map fin (load2 d)) sl2 in
  let sG3 := apply_factor G3_dispatch scaling_factor2 in
  let sG4 := apply_factor G4_dispatch scaling_factor2 in
  let ft := factor_tie scaling_factor1 scaling_factor2 tdz1 tdz2 in
  let tie := p_tie_scaled (map fin (hourly_limit d)) ft in
  let sG2 := residual sl1 sl2 sG1 sG3 sG4 in
  Ok (mkScaled sl1 sl2 sG1 sG2 sG3 sG4 (time_stamps d) tie).

(** *** One timestep

    What the comprehensions compute at one index, from the values
    [l1 = load1[t]], [l2 = load2[t]] and [f = hourly_flow[t]]; the lemma
    [scale_down_at] below shows that [scale_down] agrees with them. *)
Section Timestep.
Variables (coefficients : vec3) (max_value : Q).
Variables (l1 l2 f : Q).

Definition sl1_t : F := (fin base_load * fin l1 / fin max_value)%F.
Definition sl2_t : F := fin (evaluate coefficients l2).
Definition sf1_t : F := (sl1_t / fin l1)%F.
Definition sf2_t : F := (sl2_t / fin l2)%F.
Definition tdz1_t : F := (fin l1 + fin f)%F.
Definition tdz2_t : F := (fin l2 - fin f)%F.
Definition G1_t : F := (tdz1_t * fin G1_cap / fin (G1_cap + G2_cap) * sf1_t)%F.
Definition G3_t : F := (tdz2_t * fin G3_cap / fin (G3_cap + G4_cap) * sf2_t)%F.
Definition G4_t : F := (tdz2_t * fin G4_cap / fin (G3_cap + G4_cap) * sf2_t)%F.
Definition G2_t : F := (sl1_t + sl2_t - G1_t - G3_t - G4_t)%F.
Definition factor_tie_t : F :=
  ((sf1_t * tdz1_t + sf2_t * tdz2_t) / (fin 2 * (tdz1_t + tdz2_t)))%F.
Definition tie_t (lim : Q) : F := (fin lim * factor_tie_t / fin 2)%F.
End Timestep.

(** Two numbers have the same sign. *)
Definition same_sign (x y : Q) : Prop :=
  (0 < y -> 0 < x) /\ (y < 0 -> x < 0) /\ (y == 0 -> x == 0).

(** [data_processing], lines 198-200, with the grid already loaded. *)
Definition data_processing (fuel : nat) (pf : Prober.oracle) (g : grid) (d : day)
  : option (result scaled) :=
  match Prober.find_extreme_points fuel pf g with
  | None => None
  | Some r => Some (extremes <- Prober.outcome r ;; scale_down d extremes)
  end.

End Scaler.

(** ** Concrete inputs used below *)

Module Examples.
Import Prober Scaler.
Open Scope string_scope.

(** A two-area grid whose load 9_1 draws [p] MW and whose generator 1_1
    feeds [gn] MW. *)
Definition two_areas (p gn : Q) : grid :=
  mkGrid [mkLoad "7_1" 967 100; mkLoad "9_1" p 100]
         [mkGen "1_1" gn; mkGen "2_1" 700; mkGen "3_1" 719; mkGen "4_1" 700].

(** A power flow that converges exactly while load 9_1 stays below [D]. *)
Definition diverges_at (D : Q) : oracle :=
  fun g =>
    match read_load "9_1" g with
    | Some (p, _) => negb (Qle_bool D p)
    | None => false
    end.

Definition extremes0 : extremes := mkExtremes 1000 1300 1500.

(** Three hours of data with a transfer of 1 MW from zone 1 to zone 2. *)
Definition day0 : day :=
  mkDay ["00:00"; "01:00"; "02:00"] [10; 20; 40] [10; 20; 60] [1; 1; 1] [5; 5; 5].

(** A zone-1 series whose maximum is negative. *)
Definition day_negative : day :=
  mkDay ["00:00"; "01:00"; "02:00"] [-10; -20; -40] [10; 20; 60] [1; 1; 1] [5; 5; 5].

(** A flat demand in zone 2: its mean, maximum and minimum coincide. *)
Definition day_flat : day :=
  mkDay ["00:00"; "01:00"; "02:00"] [10; 20; 40] [50; 50; 50] [1; 1; 1] [5; 5; 5].

(** A transfer larger than the demand of zone 2. *)
Definition day_reverse : day :=
  mkDay ["00:00"; "01:00"; "02:00"] [10; 20; 40] [10; 20; 60] [90; 90; 90] [5; 5; 5].

End Examples.

(** ** [_download_with_retries] and the file names of the organisers
       ([nyiso_data_download.py]) *)

Module Download.

(** How a call of [_download_with_retries] ends. *)
Inductive ending (E : Type) : Type :=
| Returned            (* [return] after a successful [urlretrieve] *)
| Raised (e : E)      (* [raise last_err] with the last exception caught *)
| RaisedNone.         (* [raise None], which Python turns into a [TypeError] *)
Arguments Returned {E}.
Arguments Raised {E} e.
Arguments RaisedNone {E}.

(** The ending with the number of calls of [urlretrieve] and of
    [sleep(wait_sec)]. *)
Record download (E : Type) : Type := mkDownload {
  ending_of : ending E;
  attempts : nat;
  sleeps : nat
}.
Arguments mkDownload {E} _ _ _.
Arguments ending_of {E} _.
Arguments attempts {E} _.
Arguments sleeps {E} _.

Section Retries.
Variable E : Type.

(** The network: [urlretrieve i] is what call number [i] (from 0) of
    [urllib.request.urlretrieve] does, [None] when it succeeds and [Some e]
    when it raises [e], an exception that [except Exception] catches. *)
Variable urlretrieve : nat -> option E.

(** [for _ in range(retries)] with [n] rounds to go, then
    [raise last_err]. *)
Fixpoint retry_loop (n : nat) (last_err : option E) (tried slept : nat)
  : download E :=
  match n with
  | O =>
      mkDownload (match last_err with
                  | Some e => Raised e
                  | None => RaisedNone
                  end) tried slept
  | S n' =>
      match urlretrieve tried with
      | None => mkDownload Returned (S tried) slept
      | Some e => retry_loop n' (Some e) (S tried) (S slept)
      end
  end.

(** [_download_with_retries(url, file_path, retries, wait_sec)];
    [range] of a negative number is empty. *)
Definition download_with_retries (retries : Z) : download E :=
  retry_loop (Z.to_nat retries) None 0 0.

End Retries.

(** [base[:-k]] for a positive [k]. *)
Definition drop_last (k : nat) (base : string) : string :=
  substring 0 (String.length base - k) base.

(** Lines 122 and 152:
    [base[:-k] + "_" + zone if len(base) > k else base + "_" + zone]. *)
Definition base_filename (k : nat) (base zone : string) : string :=
  if (k <? String.length base)%nat
  then (drop_last k base ++ "_" ++ zone)%string
  else (base ++ "_" ++ zone)%string.

Section Organise.
(** Python's [str.upper]. *)
Variable upper : string -> string.

(** [organizing_forecast_data_per_zone], line 122: the files end in
    [isolf.csv], nine characters. *)
Definition forecast_base_filename (base zone : string) : string :=
  base_filename 9 base (upper zone).

(** [organizing_actual_load_data_per_zone], line 152: the files end in
    [palIntegrated.csv], seventeen characters. *)
Definition actual_base_filename (base zone : string) : string :=
  base_filename 17 base zone.
End Organise.

End Download.

(** ** The name helpers of [save_dispatch_scenarios.py] *)

Module Workbook.

(** [str(n)] for a natural number. *)
Definition str (n : nat) : string := NilEmpty.string_of_uint (Nat.to_uint n).

(** [[f"{prefix}{i+1}" for i in range(n)]] *)
Definition numbered (prefix : string) (n : nat) : list string :=
  map (fun i => (prefix ++ str (i + 1))%string) (seq 0 n).

(** [_names(attr_name, n, prefix)], lines 35-39; [attr] is
    [list(getattr(res, attr_name, []))]. *)
Definition names (attr : list string) (n : nat) (prefix : string) : list string :=
  let names :=
    if (match attr with [] => true | _ => false end)
       || (List.length attr <? n)%nat
    then numbered prefix n
    else attr in
  firstn n names.

(** Lines 73 and 80:
    [bus_names[:nb] if bus_names else [f"Bus{i+1}" for i in range(nb)]]. *)
Definition bus_names (given : list string) (nb : nat) : list string :=
  match given with
  | [] => numbered "Bus" nb
  | _ => firstn nb given
  end.

End Workbook.

(** ** [map_data_to_grid_model] *)

Module Mapping.
Import Scaler.

Record load : Type := mkLoad {
  ld_name : string;
  ld_P : Q;
  ld_Q : Q;
  ld_P_prof : list F;
  ld_Q_prof : list F
}.

Record generator : Type := mkGen {
  g_name : string;
  g_P_prof : list F
}.

Record branch : Type := mkBranch {
  br_name : string;
  br_rate_prof : list Q
}.

Record hvdc : Type := mkHvdc {
  hv_r : Q;
  hv_Pset : Q;
  hv_Vset_f : Q;
  hv_Vset_t : Q;
  hv_rate : Q;
  hv_Pset_prof : list Q;
  hv_rate_prof : list Q
}.

Record grid : Type := mkGrid {
  get_loads : list load;
  get_generators : list generator;
  get_branches : list branch;
  get_hvdc : list hvdc
}.

(** [np.full(T, val)] *)
Definition np_full (T : nat) (val : Q) : list Q := repeat val T.

(** [1e-12] *)
Definition tiny : Q := 1 # 1000000000000.

(** [(float(ld.Q) / max(float(ld.P), 1e-12)) * P] *)
Definition reactive_profile (ld : load) (P : list F) : list F :=
  map (fun p => (fin (ld_Q ld / Qmax (ld_P ld) tiny) * p)%F) P.

(** Lines 20-29.  [given_Q] is [scaled["load1_Q"]] (or [load2_Q]) when the
    dictionary has that key. *)
Definition set_load_profiles (P : list F) (given_Q : option (list F)) (ld : load)
  : load :=
  let Q := match given_Q with
           | Some q => q
           | None => reactive_profile ld P
           end in
  mkLoad (ld_name ld) (ld_P ld) (ld_Q ld) P Q.

Definition map_load (sc : scaled) (load1_Q load2_Q : option (list F)) (ld : load)
  : load :=
  let ld := if String.eqb (ld_name ld) "7_1"
            then set_load_profiles (scaled_load1 sc) load1_Q ld else ld in
  if String.eqb (ld_name ld) "9_1"
  then set_load_profiles (scaled_load2 sc) load2_Q ld else ld.

(** Lines 32-35: the key of [scaled] behind a generator name. *)
Definition generator_series (sc : scaled) (name : string) : option (list F) :=
  if String.eqb name "1_1" then Some (scaled_G1 sc)
  else if String.eqb name "2_1" then Some (scaled_G2 sc)
  else if String.eqb name "3_1" then Some (scaled_G3 sc)
  else if String.eqb name "4_1" then Some (scaled_G4 sc)
  else None.

Definition map_generator (sc : scaled) (g : generator) : generator :=
  match generator_series sc (g_name g) with
  | Some P => mkGen (g_name g) P
  | None => g
  end.

(** Lines 37-41. *)
Definition arr : list Q :=
  [1000; 1000; 230; 230; 230; 230; 1000; 1000; 1000; 1000; 1000; 1000].
Definition default_val : Q := 1000.

Definition map_branch (T : nat) (i : nat) (br : branch) : branch :=
  let val := match nth_error arr i with
             | Some v => v
             | None => default_val
             end in
  mkBranch (br_name br) (np_full T val).

(** Lines 44-60. *)
Definition map_hvdc (T : nat) (h : hvdc) : hvdc :=
  let Pset := 200 in
  let P0 := Pset in
  mkHvdc (5219584386 # 100000000000) Pset 1 1 600 (np_full T P0) (np_full T 600).

Section Map.
(** GridCal's [grid.format_profiles(range(T))]. *)
Variable format_profiles : nat -> grid -> grid.

(** [map_data_to_grid_model], on the grid that [add_grid_model] has
    loaded; [load1_Q] and [load2_Q] are the optional keys of [scaled]. *)
Definition map_data_to_grid_model (g : grid) (sc : scaled)
           (load1_Q load2_Q : option (list F)) : grid :=
  let T := List.length (time sc) in
  let g := format_profiles T g in
  mkGrid
    (map (map_load sc load1_Q load2_Q) (get_loads g))
    (map (map_generator sc) (get_generators g))
    (map (fun '(i, br) => map_branch T i br)
         (combine (seq 0 (List.length (get_branches g))) (get_branches g)))
    (map (map_hvdc T) (get_hvdc g)).
End Map.

End Mapping.

(** ** The name of the workbook ([main.py], [run_full_pipeline]) *)

Module Pipeline.

(** [s.replace(old, new)] for single characters. *)
Fixpoint replace_char (old new : ascii) (s : string) : string :=
  match s with
  | EmptyString => EmptyString
  | String c s' =>
      String (if Ascii.eqb c old then new else c) (replace_char old new s')
  end.

(** Line 281: [f"ghds_{date.replace('-', '_')}.xlsx"]. *)
Definition final_name (date : string) : string :=
  ("ghds_" ++ replace_char "-" "_" date ++ ".xlsx")%string.

End Pipeline.

(** ** More concrete inputs *)

Module Scenarios.
Import Scaler.
Open Scope string_scope.

(** A network that fails twice with [e1], [e2] and then answers. *)
Definition third_time_lucky (i : nat) : option nat :=
  match i with
  | 0%nat => Some 1%nat
  | 1%nat => Some 2%nat
  | _ => None
  end.

(** A network that is down: call [i] fails with error [i]. *)
Definition offline (i : nat) : option nat := Some i.

(** A grid without the load 9_1. *)
Definition no_load_9 : Grid.grid :=
  Grid.mkGrid [Grid.mkLoad "7_1" 967 100] [Grid.mkGen "1_1" 700].

(** A power flow that always converges. *)
Definition always_converges : Prober.oracle := fun _ => true.

(** A day whose zone-1 demand is zero in the first hour. *)
Definition day_zero : day :=
  mkDay ["00:00"; "01:00"; "02:00"] [0; 20; 40] [10; 20; 60] [1; 1; 1] [5; 5; 5].

(** A day whose series have different lengths. *)
Definition day_ragged : day :=
  mkDay ["00:00"] [10; 20; 40; 30] [10; 20; 60] [1; 1] [5].

(** The loaded two-area model, with profiles of [T] steps. *)
Definition mapped_grid0 : Mapping.grid :=
  Mapping.mkGrid
    [Mapping.mkLoad "7_1" 967 100 [] []; Mapping.mkLoad "9_1" 1767 100 [] []]
    [Mapping.mkGen "1_1" []; Mapping.mkGen "2_1" []; Mapping.mkGen "3_1" [];
     Mapping.mkGen "4_1" []]
    [Mapping.mkBranch "1_5" []; Mapping.mkBranch "5_6" []]
    [].

End Scenarios.

(** * Properties of [find_extreme_points] *)

Module ProberFacts.
Import Prober.

Lemma after_front (i : nat) (inc : Q) (g : grid) (st : locals) :
  after (S i) inc g st
  = after i inc (candidate g (advance inc st)) (commit (advance inc st)).
Proof.
  induction i as [|i IH]; [reflexivity|].
  change (after (S (S i)) inc g st)
    with (let '(g', st') := after (S i) inc g st in
          (candidate g' (advance inc st'), commit (advance inc st'))).
  rewrite IH. reflexivity.
Qed.

Lemma probe_front (i : nat) (inc : Q) (g : grid) (st : locals) :
  probe (S i) inc g st
  = probe i inc (candidate g (advance inc st)) (commit (advance inc st)).
Proof. unfold probe. now rewrite after_front. Qed.

(** While the oracle accepts, the loop just moves on. *)
Lemma probe_loop_converged (k fuel : nat) (pf : oracle) (inc : Q) :
  forall (g : grid) (st : locals) (calls : nat),
    (forall i, (1 <= i <= k)%nat -> pf (probe i inc g st) = true) ->
    probe_loop (k + fuel) pf inc g st calls
    = probe_loop fuel pf inc (fst (after k inc g st)) (snd (after k inc g st))
                 (calls + k).
Proof.
  induction k as [|k IH]; intros g st calls Hpf.
  - simpl. now rewrite Nat.add_0_r.
  - cbn [Nat.add probe_loop].
    assert (H1 : pf (candidate g (advance inc st)) = true)
      by (apply (Hpf 1%nat); lia).
    rewrite H1, IH.
    + rewrite <- after_front. f_equal. lia.
    + intros i Hi. rewrite <- probe_front. apply Hpf. lia.
Qed.

(** The loop stops at the first probe that the oracle rejects: it has run
    [k] power flows and leaves the rolled-back locals. *)
Lemma probe_loop_first_divergence (k fuel : nat) (pf : oracle) (inc : Q)
      (g : grid) (st : locals) (calls : nat) :
  first_divergence pf inc g st (S k) ->
  (S k <= fuel)%nat ->
  probe_loop fuel pf inc g st calls
  = Some (probe (S k) inc g st,
          roll_back inc (advance inc (snd (after k inc g st))),
          (calls + S k)%nat).
Proof.
  intros [Hok Hbad] Hfuel.
  replace fuel with (k + S (fuel - S k))%nat by lia.
  rewrite probe_loop_converged by (intros i Hi; apply Hok; lia).
  cbn [probe_loop].
  unfold probe in Hbad. cbn [after] in Hbad.
  destruct (after k inc g st) as [g' st'] eqn:E. cbn [fst snd] in *.
  rewrite Hbad. unfold probe. cbn [after]. rewrite E. cbn [fst].
  now rewrite Nat.add_succ_r.
Qed.

Lemma loadP_after (i : nat) (inc : Q) (g : grid) (st : locals) :
  loadP (snd (after i inc g st)) == loadP st + inject_Z (Z.of_nat i) * inc.
Proof.
  induction i as [|i IH].
  - simpl. ring.
  - cbn [after]. destruct (after i inc g st) as [g' st'].
    cbn [snd commit advance loadP] in *. rewrite IH.
    rewrite Nat2Z.inj_succ. unfold Z.succ. rewrite inject_Z_plus. ring.
Qed.

Lemma load_h_after (i : nat) (inc : Q) (g : grid) (st : locals) :
  load_h (snd (after (S i) inc g st)) = Some (loadP (snd (after (S i) inc g st)))
  /\ load_no (snd (after (S i) inc g st)) = Some 1500.
Proof.
  cbn [after]. destruct (after i inc g st) as [g' st']. split; reflexivity.
Qed.

(** Below the ceiling the roll-back undoes the increments. *)
Lemma roll_back_below_ceiling (inc : Q) (st : locals) :
  gen st < 9999 ->
  loadP (roll_back inc (advance inc st)) == loadP st /\
  loadQ (roll_back inc (advance inc st)) == loadQ st /\
  gen (roll_back inc (advance inc st)) == gen st.
Proof.
  intros Hlt. unfold roll_back, advance. cbn [loadP loadQ gen].
  destruct (Qle_bool 9999 (gen st)) eqn:E.
  - apply Qle_bool_iff in E. lra.
  - cbn [negb]. repeat split; ring.
Qed.

(** At the ceiling the generation was not raised, and is lowered all the
    same. *)
Lemma roll_back_at_ceiling (inc : Q) (st : locals) :
  9999 <= gen st ->
  loadP (roll_back inc (advance inc st)) == loadP st /\
  gen (roll_back inc (advance inc st)) == gen st - inc.
Proof.
  intros Hge. unfold roll_back, advance. cbn [loadP loadQ gen].
  apply Qle_bool_iff in Hge. rewrite Hge. cbn [negb]. split; ring.
Qed.

(** With at least one converged probe, [find_extreme_points] returns: the
    high point is the load of the last converged probe, one step below the
    first rejected load, after [k] probes and the base-case solve. *)
Theorem find_extreme_points_returns (pf : oracle) (g : grid) (p q gn : Q)
        (k fuel : nat) :
  read_load "9_1" g = Some (p, q) ->
  read_generator "1_1" g = Some gn ->
  first_divergence pf load_increment g (mkLocals p q gn None None) k ->
  (2 <= k)%nat -> (k <= fuel)%nat ->
  exists h,
    find_extreme_points fuel pf g
    = Some (mkRun (Ok (mkExtremes p h 1500)) (S k))
    /\ h == p + inject_Z (Z.of_nat k) * load_increment - load_increment.
Proof.
  intros Hl Hg Hdiv Hk Hfuel.
  destruct k as [|[|k]]; try lia.
  unfold find_extreme_points. rewrite Hl, Hg.
  rewrite (probe_loop_first_divergence (S k) fuel) by assumption.
  set (st0 := mkLocals p q gn None None).
  destruct (load_h_after k load_increment g st0) as [Hh Hn].
  cbn [roll_back advance load_h load_no].
  rewrite Hh, Hn. cbn [read bind].
  eexists. split; [reflexivity|].
  rewrite loadP_after. cbn [loadP st0].
  rewrite !Nat2Z.inj_succ. unfold Z.succ. rewrite !inject_Z_plus. ring.
Qed.

(** The example of the specification: from 1000 MW, with a power flow that
    diverges at 1310 MW, the high point is 1300 MW after 32 solves. *)
Example find_extreme_points_1000_1310 :
  find_extreme_points 31 (Examples.diverges_at 1310) (Examples.two_areas 1000 700)
  = Some (mkRun (Ok (mkExtremes 1000 1300 1500)) 32).
Proof. vm_compute. reflexivity. Qed.

End ProberFacts.

Module ProberClaims.
Import Prober ProberFacts Examples.

(** C2 (the code departs from the claim).  The claim: the search stops
    at the first rejected load [D] and returns [D - step].  At the first
    admissible [D], one step above the start, the code does not: from
    1300 MW with a power flow that diverges at 1310 MW the first probe is
    the first divergence, and the call ends in [UnboundLocalError] after
    two solves instead of returning 1300 MW. *)
Theorem find_extreme_points_first_probe_1310 :
  let g := two_areas 1300 700 in
  let pf := diverges_at 1310 in
  read_load "9_1" g = Some (1300, 100)
  /\ first_divergence pf load_increment g (mkLocals 1300 100 700 None None) 1
  /\ find_extreme_points 1 pf g = Some (mkRun (Raise UnboundLocalError) 2)
  /\ forall fuel, find_extreme_points (S fuel) pf g
                  = Some (mkRun (Raise UnboundLocalError) 2).
Proof.
  cbv zeta. split; [reflexivity|]. split; [split|split].
  - intros i Hi. lia.
  - reflexivity.
  - reflexivity.
  - intros fuel. reflexivity.
Qed.

(** C3, refuted as stated.  The claim speaks of a returned (load,
    generation) pair that is the last converged state, also when the
    ceiling was active.  With the generator at 9990 MW the first probe
    raises it to 10000 MW and converges; the second probe adds nothing to
    it, because the ceiling is reached, and is rejected.  The call returns
    the loads 1000, 1010 and 1500 and no generation.  The roll-back takes a
    step off the generation although the rejected probe had added none:
    the locals are left at (1010, 9990), the grid at (1020, 10000), and
    neither is the last converged state (1010, 10000). *)
Lemma returned_pair_counterexample :
  let g := two_areas 1000 9990 in
  let pf := diverges_at 1020 in
  let st0 := mkLocals 1000 100 9990 None None in
  find_extreme_points 2 pf g
  = Some (mkRun (Ok (mkExtremes 1000 1010 1500)) 3)
  /\ pf (probe 1 load_increment g st0) = true
  /\ pf (probe 2 load_increment g st0) = false
  /\ read_load "9_1" (probe 1 load_increment g st0) = Some (1010, 110)
  /\ read_generator "1_1" (probe 1 load_increment g st0) = Some 10000
  /\ read_generator "1_1" (probe 2 load_increment g st0) = Some 10000
  /\ exists g' st,
      probe_loop 2 pf load_increment g st0 1 = Some (g', st, 3%nat)
      /\ loadP st == 1010
      /\ gen st == 9990
      /\ ~ gen st == 10000
      /\ read_load "9_1" g' = Some (1020, 120)
      /\ read_generator "1_1" g' = Some 10000.
Proof.
  cbv zeta.
  do 6 (split; [vm_compute; reflexivity|]).
  do 2 eexists.
  split; [vm_compute; reflexivity|].
  split; [vm_compute; reflexivity|].
  split; [vm_compute; reflexivity|].
  split; [intros H; vm_compute in H; discriminate|].
  split; vm_compute; reflexivity.
Qed.

(** C10.  When the power flow rejects the very first probe, the names
    [load_h] and [load_no] were never bound and [find_extreme_points] ends
    in [UnboundLocalError] at its [return], after the base-case solve and
    that one probe; it does not return the base point as the high point.
    Conversely a call that returns a value has seen its first probe
    converge. *)
Theorem find_extreme_points_needs_converged_probe
        (pf : oracle) (g : grid) (p q gn : Q) :
  read_load "9_1" g = Some (p, q) ->
  read_generator "1_1" g = Some gn ->
  let first := probe 1 load_increment g (mkLocals p q gn None None) in
  (pf first = false ->
   forall fuel, find_extreme_points (S fuel) pf g
                = Some (mkRun (Raise UnboundLocalError) 2))
  /\ (forall fuel r e,
         find_extreme_points fuel pf g = Some r ->
         outcome r = Ok e ->
         pf first = true).
Proof.
  intros Hl Hg first. split.
  - intros Hbad fuel. unfold find_extreme_points. rewrite Hl, Hg.
    cbn [probe_loop]. change (pf first = false) in Hbad.
    unfold first, probe in Hbad. cbn [after fst] in Hbad.
    rewrite Hbad. reflexivity.
  - intros fuel r e Hrun Hout.
    destruct (pf first) eqn:E; [reflexivity|exfalso].
    unfold find_extreme_points in Hrun. rewrite Hl, Hg in Hrun.
    destruct fuel as [|fuel]; [discriminate|].
    cbn [probe_loop] in Hrun.
    unfold first, probe in E. cbn [after fst] in E.
    rewrite E in Hrun. injection Hrun as <-. discriminate.
Qed.

Lemma find_extreme_points_needs_converged_probe_witness :
  find_extreme_points 1 (diverges_at 1010) (two_areas 1000 700)
  = Some (mkRun (Raise UnboundLocalError) 2).
Proof.
  apply (proj1 (find_extreme_points_needs_converged_probe
                  (diverges_at 1010) (two_areas 1000 700) 1000 100 700
                  eq_refl eq_refl)).
  reflexivity.
Defined.

End ProberClaims.

(** * Properties of [scale_down] *)

Module ScalerFacts.
Import Scaler.

(** *** Lists *)

Lemma nth_error_zip {A B : Type} (l1 : list A) (l2 : list B) (t : nat) :
  nth_error (zip l1 l2) t
  = match nth_error l1 t, nth_error l2 t with
    | Some a, Some b => Some (a, b)
    | _, _ => None
    end.
Proof.
  revert l2 t. induction l1 as [|a l1 IH]; intros [|b l2] [|t]; cbn;
    try reflexivity.
  - now destruct (nth_error l1 t).
  - apply IH.
Qed.

(** *** Floats *)

Lemma Fdiv_fin (a b : Q) : ~ b == 0 -> (fin a / fin b)%F = fin (a / b).
Proof.
  intros Hb. unfold Fdiv, fin.
  destruct (Qeq_bool b 0) eqn:E; [|reflexivity].
  apply Qeq_bool_iff in E. contradiction.
Qed.

Lemma Fdiv_zero (x : F) (b : Q) : b == 0 -> (x / fin b)%F = None.
Proof.
  intros Hb. unfold Fdiv, fin. destruct x as [a|]; [|reflexivity].
  now rewrite (Qeq_eq_bool _ _ Hb).
Qed.

Lemma Fadd_fin (a b : Q) : (fin a + fin b)%F = fin (a + b).
Proof. reflexivity. Qed.

Lemma Fsub_fin (a b : Q) : (fin a - fin b)%F = fin (a - b).
Proof. reflexivity. Qed.

Lemma Fmul_fin (a b : Q) : (fin a * fin b)%F = fin (a * b).
Proof. reflexivity. Qed.

Ltac fin_arith :=
  repeat first [rewrite Fadd_fin | rewrite Fsub_fin | rewrite Fmul_fin].

(** *** Reductions *)

Lemma fold_Qmax_ge (l : list Q) (x0 : Q) :
  x0 <= fold_left Qmax l x0 /\ forall x, In x l -> x <= fold_left Qmax l x0.
Proof.
  revert x0. induction l as [|y l IH]; intros x0.
  - split; [apply Qle_refl | intros x []].
  - cbn [fold_left]. destruct (IH (Qmax x0 y)) as [H0 Hin].
    assert (Hx0 : x0 <= Qmax x0 y /\ y <= Qmax x0 y).
    { unfold Qmax. destruct (Qle_bool x0 y) eqn:E.
      - apply Qle_bool_iff in E. split; [exact E | apply Qle_refl].
      - split; [apply Qle_refl|].
        destruct (Qlt_le_dec y x0) as [Hlt|Hle]; [now apply Qlt_le_weak|].
        apply Qle_bool_iff in Hle. congruence. }
    destruct Hx0 as [Ha Hb]. split.
    + eapply Qle_trans; eassumption.
    + intros x [<-|Hx]; [eapply Qle_trans; eassumption | now apply Hin].
Qed.

Lemma fold_Qmax_In (l : list Q) (x0 : Q) : In (fold_left Qmax l x0) (x0 :: l).
Proof.
  revert x0. induction l as [|y l IH]; intros x0.
  - now left.
  - cbn [fold_left]. destruct (IH (Qmax x0 y)) as [H|H].
    + unfold Qmax in H at 1. destruct (Qle_bool x0 y).
      * right. left. exact H.
      * left. exact H.
    + right. right. exact H.
Qed.

Lemma np_max_ge (l : list Q) (m : Q) :
  np_max l = Ok m -> forall x, In x l -> x <= m.
Proof.
  destruct l as [|x0 l]; [discriminate|]. intros [= <-] x [<-|Hx].
  - apply (proj1 (fold_Qmax_ge l x0)).
  - now apply (proj2 (fold_Qmax_ge l x0)).
Qed.

Lemma np_max_In (l : list Q) (m : Q) : np_max l = Ok m -> In m l.
Proof.
  destruct l as [|x0 l]; [discriminate|]. intros [= <-]. apply fold_Qmax_In.
Qed.

Lemma np_mean_nonempty (x : Q) (l : list Q) :
  np_mean (x :: l)
  = fin (np_sum (x :: l) / inject_Z (Z.of_nat (List.length (x :: l)))).
Proof.
  unfold np_mean. apply Fdiv_fin.
  cbn [List.length]. rewrite Nat2Z.inj_succ. unfold Z.succ.
  rewrite inject_Z_plus. intros H.
  assert (0 <= inject_Z (Z.of_nat (List.length l))).
  { change 0 with (inject_Z 0). rewrite <- Zle_Qle. lia. }
  change (inject_Z 1) with 1 in H. lra.
Qed.

(** *** The linear system *)

Lemma det3_system_matrix (p0 p1 p2 : point) :
  det3 (system_matrix (p0, p1, p2))
  == (fst p0 - fst p1) * (fst p0 - fst p2) * (fst p1 - fst p2).
Proof. unfold det3, system_matrix. cbv beta iota. ring. Qed.

(** Cramer's rule solves the system whenever the determinant is not 0. *)
Lemma linalg_solve_correct (A : mat3) (B : vec3) :
  ~ det3 A == 0 ->
  exists x, linalg_solve A B = Ok x /\ vec_eq (mat_vec A x) B.
Proof.
  intros Hd. unfold linalg_solve.
  destruct (Qeq_bool (det3 A) 0) eqn:E.
  { apply Qeq_bool_iff in E. contradiction. }
  eexists. split; [reflexivity|].
  destruct A as [[[[a11 a12] a13] [[a21 a22] a23]] [[a31 a32] a33]].
  destruct B as [[b1 b2] b3].
  unfold vec_eq, mat_vec, replace_column, det3 in *.
  repeat split; field; exact Hd.
Qed.

Lemma linalg_solve_singular (A : mat3) (B : vec3) :
  det3 A == 0 -> linalg_solve A B = Raise LinAlgError.
Proof.
  intros Hd. unfold linalg_solve. now rewrite (Qeq_eq_bool _ _ Hd).
Qed.

(** *** [scale_down], one timestep at a time *)

Lemma scale_down_at (d : day) (ext : Prober.extremes) (out : scaled)
      (t : nat) (l1 l2 f : Q) :
  scale_down d ext = Ok out ->
  nth_error (load1 d) t = Some l1 ->
  nth_error (load2 d) t = Some l2 ->
  nth_error (hourly_flow d) t = Some f ->
  exists pts c m,
    calibration_points d ext = Ok pts
    /\ fit pts = Ok c
    /\ np_max (load1 d) = Ok m
    /\ nth_error (scaled_load1 out) t = Some (sl1_t m l1)
    /\ nth_error (scaled_load2 out) t = Some (sl2_t c l2)
    /\ nth_error (scaled_G1 out) t = Some (G1_t m l1 f)
    /\ nth_error (scaled_G2 out) t = Some (G2_t c m l1 l2 f)
    /\ nth_error (scaled_G3 out) t = Some (G3_t c l2 f)
    /\ nth_error (scaled_G4 out) t = Some (G4_t c l2 f)
    /\ (forall lim, nth_error (hourly_limit d) t = Some lim ->
                    nth_error (tie_rate out) t = Some (tie_t c m l1 l2 f lim)).
Proof.
  intros Hrun H1 H2 Hf. unfold scale_down in Hrun.
  destruct (calibration_points d ext) as [pts|] eqn:Epts; [|discriminate].
  cbn [bind] in Hrun.
  destruct (fit pts) as [c|] eqn:Ec; [|discriminate]. cbn [bind] in Hrun.
  destruct (np_max (load1 d)) as [m|] eqn:Em; [|discriminate].
  cbn [bind] in Hrun.
  injection Hrun as <-. exists pts, c, m.
  do 3 (split; [first [assumption | reflexivity]|]).
  cbn [scaled_load1 scaled_load2 scaled_G1 scaled_G2 scaled_G3 scaled_G4
       tie_rate].
  unfold residual, p_tie_scaled, factor_tie, apply_factor, scaling_factor,
    scale_to_peak, capacity_share, evaluate_series, total_dispatch_zone1,
    total_dispatch_zone2.
  repeat (rewrite ?nth_error_map, ?nth_error_zip).
  rewrite H1, H2, Hf. cbn [option_map].
  do 6 (split; [reflexivity|]).
  intros lim Hlim.
  repeat (rewrite ?nth_error_map, ?nth_error_zip).
  rewrite Hlim. reflexivity.
Qed.

Lemma zone1_capacity_nonzero : ~ G1_cap + G2_cap == 0.
Proof. intros H. vm_compute in H. discriminate. Qed.

Lemma zone2_capacity_nonzero : ~ G3_cap + G4_cap == 0.
Proof. intros H. vm_compute in H. discriminate. Qed.

(** With nonzero divisors every value of the timestep is finite. *)
Lemma timestep_finite (c : vec3) (m l1 l2 f : Q) :
  ~ m == 0 -> ~ l1 == 0 -> ~ l2 == 0 ->
  let s1 := base_load * l1 / m in
  let s2 := evaluate c l2 in
  let g1 := (l1 + f) * G1_cap / (G1_cap + G2_cap) * (s1 / l1) in
  let g3 := (l2 - f) * G3_cap / (G3_cap + G4_cap) * (s2 / l2) in
  let g4 := (l2 - f) * G4_cap / (G3_cap + G4_cap) * (s2 / l2) in
  sl1_t m l1 = fin s1
  /\ sl2_t c l2 = fin s2
  /\ sf1_t m l1 = fin (s1 / l1)
  /\ sf2_t c l2 = fin (s2 / l2)
  /\ G1_t m l1 f = fin g1
  /\ G3_t c l2 f = fin g3
  /\ G4_t c l2 f = fin g4
  /\ G2_t c m l1 l2 f = fin (s1 + s2 - g1 - g3 - g4).
Proof.
  intros Hm H1 H2. cbv zeta.
  unfold G2_t, G1_t, G3_t, G4_t, sf1_t, sf2_t, sl1_t, sl2_t, tdz1_t, tdz2_t.
  fin_arith.
  rewrite (Fdiv_fin _ m Hm).
  rewrite (Fdiv_fin _ l1 H1), (Fdiv_fin _ l2 H2).
  rewrite (Fdiv_fin _ _ zone1_capacity_nonzero).
  rewrite !(Fdiv_fin _ _ zone2_capacity_nonzero).
  fin_arith.
  repeat split; reflexivity.
Qed.

Lemma tie_finite (c : vec3) (m l1 l2 f lim : Q) :
  ~ m == 0 -> ~ l1 == 0 -> ~ l2 == 0 -> ~ (l1 + f) + (l2 - f) == 0 ->
  tie_t c m l1 l2 f lim
  = fin (lim * (((base_load * l1 / m / l1) * (l1 + f)
                 + (evaluate c l2 / l2) * (l2 - f))
                / (2 * ((l1 + f) + (l2 - f)))) / 2).
Proof.
  intros Hm H1 H2 Hz.
  destruct (timestep_finite c m l1 l2 f Hm H1 H2)
    as (_ & _ & Hs1 & Hs2 & _).
  unfold tie_t, factor_tie_t. rewrite Hs1, Hs2. unfold tdz1_t, tdz2_t.
  fin_arith.
  rewrite (Fdiv_fin _ (2 * _)) by (intros H; apply Hz; lra).
  fin_arith.
  rewrite Fdiv_fin by (intros H; vm_compute in H; discriminate).
  reflexivity.
Qed.

Lemma Some_inj {A : Type} (x y : A) : Some x = Some y -> x = y.
Proof. now intros [= ->]. Qed.

Lemma Fdiv_inv (x : F) (b a : Q) :
  (x / fin b)%F = fin a -> ~ b == 0 /\ exists x', x = fin x' /\ a = x' / b.
Proof.
  unfold Fdiv, fin. destruct x as [x'|]; [|discriminate].
  destruct (Qeq_bool b 0) eqn:E; [discriminate|].
  intros [= <-]. split; [now apply Qeq_bool_neq|]. now exists x'.
Qed.

Lemma scaling_factor_at (raw scaled : list F) (t : nat) (i j : F) :
  nth_error raw t = Some i ->
  nth_error scaled t = Some j ->
  nth_error (scaling_factor raw scaled) t = Some (j / i)%F.
Proof.
  intros Hi Hj. unfold scaling_factor.
  now rewrite nth_error_map, nth_error_zip, Hi, Hj.
Qed.

(** The peak-anchored series depends on [load1] alone. *)
Lemma scale_down_load1 (d : day) (ext : Prober.extremes) (out : scaled) :
  scale_down d ext = Ok out ->
  exists m, np_max (load1 d) = Ok m
            /\ scaled_load1 out = scale_to_peak base_load m (map fin (load1 d)).
Proof.
  unfold scale_down. intros Hrun.
  destruct (calibration_points d ext) as [pts|]; [|discriminate].
  cbn [bind] in Hrun.
  destruct (fit pts) as [c|]; [|discriminate]. cbn [bind] in Hrun.
  destruct (np_max (load1 d)) as [m|]; [|discriminate]. cbn [bind] in Hrun.
  injection Hrun as <-. now exists m.
Qed.

Lemma Qdiv_pos (p q : Q) : 0 < p -> 0 < q -> 0 < p / q.
Proof.
  intros Hp Hq. unfold Qdiv.
  apply Qmult_lt_0_compat; [exact Hp | now apply Qinv_lt_0_compat].
Qed.

Lemma Qdiv_neg_neg (p q : Q) : p < 0 -> q < 0 -> 0 < p / q.
Proof.
  intros Hp Hq.
  assert (Hq' : ~ q == 0) by lra.
  assert (E : p / q == (- p) / (- q)) by (field; lra).
  rewrite E. apply Qdiv_pos; lra.
Qed.

Lemma Feq_refl (x : F) : Feq x x.
Proof. destruct x; simpl; [apply Qeq_refl | exact I]. Qed.

(** [x * cap / total] is the share [cap / total] of [x]. *)
Lemma share_assoc (z cap total : Q) (sf : F) :
  ~ total == 0 ->
  Feq (fin z * fin cap / fin total * sf)%F
      (fin z * (fin cap / fin total) * sf)%F.
Proof.
  intros Ht. fin_arith. rewrite !(Fdiv_fin _ _ Ht). fin_arith.
  destruct sf as [q|]; cbn; [|exact I]. field. exact Ht.
Qed.

(** The first hour of [day0], where 1 MW flows from zone 1 to zone 2:
    neither zone balances on its own, with or without the residual. *)
Lemma day0_first_hour :
  exists out g1 g2 g3 g4 s1 s2,
    scale_down Examples.day0 Examples.extremes0 = Ok out
    /\ nth_error (scaled_G1 out) 0 = Some (fin g1)
    /\ nth_error (scaled_G2 out) 0 = Some (fin g2)
    /\ nth_error (scaled_G3 out) 0 = Some (fin g3)
    /\ nth_error (scaled_G4 out) 0 = Some (fin g4)
    /\ nth_error (scaled_load1 out) 0 = Some (fin s1)
    /\ nth_error (scaled_load2 out) 0 = Some (fin s2)
    /\ ~ g1 == s1
    /\ ~ g1 + g2 == s1
    /\ ~ g3 + g4 == s2
    /\ ~ g3 + g4 + g2 == s2.
Proof.
  do 7 eexists.
  split; [vm_compute; reflexivity|].
  do 6 (split; [vm_compute; reflexivity|]).
  repeat split; intros H; vm_compute in H; discriminate.
Qed.

End ScalerFacts.

Module ScalerClaims.
Import Scaler ScalerFacts Examples.

(** C4.  For three calibration points with pairwise distinct metrics
    [x0], [x1], [x2] and any bounds [y0], [y1], [y2], the fit returns
    coefficients that solve the system
    [[x0^2, x0, 1], [x1^2, x1, 1], [x2^2, x2, 1]] (a, b, c) = (y0, y1, y2),
    and the quadratic takes the value [yi] at each [xi]. *)
Theorem fit_interpolates (x0 x1 x2 y0 y1 y2 : Q) :
  ~ x0 == x1 -> ~ x0 == x2 -> ~ x1 == x2 ->
  let points := ((x0, y0), (x1, y1), (x2, y2)) in
  exists coefficients,
    fit points = Ok coefficients
    /\ vec_eq (mat_vec (system_matrix points) coefficients) (y0, y1, y2)
    /\ evaluate coefficients x0 == y0
    /\ evaluate coefficients x1 == y1
    /\ evaluate coefficients x2 == y2.
Proof.
  intros H01 H02 H12 points.
  assert (Hdet : ~ det3 (system_matrix points) == 0).
  { unfold points. rewrite det3_system_matrix. cbn [fst].
    intros H.
    apply Qmult_integral in H as [H|H]; [|lra].
    apply Qmult_integral in H as [H|H]; lra. }
  destruct (linalg_solve_correct _ (right_hand_side points) Hdet)
    as [[[a b] c] [Hfit Hsol]].
  exists (a, b, c). split; [exact Hfit|]. split; [exact Hsol|].
  unfold points, vec_eq, mat_vec, system_matrix, right_hand_side in Hsol.
  cbn [fst snd] in Hsol. destruct Hsol as (E0 & E1 & E2).
  unfold evaluate. repeat split.
  - rewrite <- E0. ring.
  - rewrite <- E1. ring.
  - rewrite <- E2. ring.
Qed.

(** The example of the specification: the quadratic through (500, 1000),
    (700, 1300) and (300, 1500). *)
Lemma fit_interpolates_witness :
  exists coefficients,
    fit ((500, 1000), (700, 1300), (300, 1500)) = Ok coefficients
    /\ evaluate coefficients 500 == 1000
    /\ evaluate coefficients 700 == 1300
    /\ evaluate coefficients 300 == 1500.
Proof.
  destruct (fit_interpolates 500 700 300 1000 1300 1500) as (c & H & _ & E).
  - intros H. vm_compute in H. discriminate.
  - intros H. vm_compute in H. discriminate.
  - intros H. vm_compute in H. discriminate.
  - exists c. split; [exact H | exact E].
Defined.

(** C5.  When two of the three reference metrics coincide the system is
    singular: the fit raises [LinAlgError] instead of returning
    coefficients, [scale_down] raises it in turn for a day whose
    calibration points these are, and so does [data_processing]: the run
    is aborted. *)
Theorem fit_singular_raises (p0 p1 p2 : point) :
  fst p0 == fst p1 \/ fst p0 == fst p2 \/ fst p1 == fst p2 ->
  fit (p0, p1, p2) = Raise LinAlgError
  /\ forall d ext,
       calibration_points d ext = Ok (p0, p1, p2) ->
       scale_down d ext = Raise LinAlgError
       /\ forall fuel pf g r,
            Prober.find_extreme_points fuel pf g = Some r ->
            Prober.outcome r = Ok ext ->
            data_processing fuel pf g d = Some (Raise LinAlgError).
Proof.
  intros Hcoincide.
  assert (Hfit : fit (p0, p1, p2) = Raise LinAlgError).
  { unfold fit. apply linalg_solve_singular. rewrite det3_system_matrix.
    destruct Hcoincide as [H|[H|H]]; rewrite H; ring. }
  split; [exact Hfit|]. intros d ext Hpts.
  assert (Hrun : scale_down d ext = Raise LinAlgError).
  { unfold scale_down. rewrite Hpts. cbn [bind]. now rewrite Hfit. }
  split; [exact Hrun|]. intros fuel pf g r Hr Hout.
  unfold data_processing. rewrite Hr, Hout. cbn [bind]. now rewrite Hrun.
Qed.

Lemma fit_singular_raises_witness :
  scale_down day_flat extremes0 = Raise LinAlgError.
Proof.
  refine (proj1 (proj2 (fit_singular_raises (150 # 3, 1000) (50, 1300) (50, 1500) _)
                       day_flat extremes0 eq_refl)).
  right. right. reflexivity.
Defined.

(** C6.  Every generator other than the residual receives, at every
    timestep, the zone total of the transfer-adjusted raw series times its
    share of the zone's capacity, times the scaling factor
    [scaled[t] / raw[t]] of its zone: G1 in zone 1 (total [load1 + flow]),
    G3 and G4 in zone 2 (total [load2 - flow]).  Where the divisors
    [max(load1)], [load1[t]] and [load2[t]] are not 0 these outputs are
    finite numbers, with [scaled_load1[t] = 967 * load1[t] / max(load1)]
    and [scaled_load2[t]] the fitted quadratic at [load2[t]]; at any other
    timestep the same product holds among non-finite values.  Before
    scaling, the zone total [100, 200] with capacities 30 and 70 splits
    into [30, 60] and [70, 140], which add up to the zone total. *)
Theorem capacity_allocation :
  (forall d ext out t l1 l2 f m,
      scale_down d ext = Ok out ->
      nth_error (load1 d) t = Some l1 ->
      nth_error (load2 d) t = Some l2 ->
      nth_error (hourly_flow d) t = Some f ->
      np_max (load1 d) = Ok m ->
      ~ m == 0 -> ~ l1 == 0 -> ~ l2 == 0 ->
      exists pts c s1 s2 g1 g3 g4,
        calibration_points d ext = Ok pts
        /\ fit pts = Ok c
        /\ nth_error (scaled_load1 out) t = Some (fin s1)
        /\ nth_error (scaled_load2 out) t = Some (fin s2)
        /\ nth_error (scaled_G1 out) t = Some (fin g1)
        /\ nth_error (scaled_G3 out) t = Some (fin g3)
        /\ nth_error (scaled_G4 out) t = Some (fin g4)
        /\ s1 == base_load * l1 / m
        /\ s2 == evaluate c l2
        /\ g1 == (l1 + f) * (G1_cap / (G1_cap + G2_cap)) * (s1 / l1)
        /\ g3 == (l2 - f) * (G3_cap / (G3_cap + G4_cap)) * (s2 / l2)
        /\ g4 == (l2 - f) * (G4_cap / (G3_cap + G4_cap)) * (s2 / l2))
  /\ (forall d ext out t l1 l2 f,
        scale_down d ext = Ok out ->
        nth_error (load1 d) t = Some l1 ->
        nth_error (load2 d) t = Some l2 ->
        nth_error (hourly_flow d) t = Some f ->
        exists s1 s2 g1 g3 g4,
          nth_error (scaled_load1 out) t = Some s1
          /\ nth_error (scaled_load2 out) t = Some s2
          /\ nth_error (scaled_G1 out) t = Some g1
          /\ nth_error (scaled_G3 out) t = Some g3
          /\ nth_error (scaled_G4 out) t = Some g4
          /\ Feq g1 ((fin l1 + fin f) * (fin G1_cap / fin (G1_cap + G2_cap))
                     * (s1 / fin l1))%F
          /\ Feq g3 ((fin l2 - fin f) * (fin G3_cap / fin (G3_cap + G4_cap))
                     * (s2 / fin l2))%F
          /\ Feq g4 ((fin l2 - fin f) * (fin G4_cap / fin (G3_cap + G4_cap))
                     * (s2 / fin l2))%F)
  /\ (let zone_total := [fin 100; fin 200] in
      let A := capacity_share 30 (30 + 70) zone_total in
      let B := capacity_share 70 (30 + 70) zone_total in
      Forall2 Feq A [fin 30; fin 60]
      /\ Forall2 Feq B [fin 70; fin 140]
      /\ Forall2 Feq (map (fun '(a, b) => (a + b)%F) (zip A B)) zone_total).
Proof.
  split; [|split].
  - intros d ext out t l1 l2 f m Hrun H1 H2 Hf Hmax Hm Hl1 Hl2.
    destruct (scale_down_at d ext out t l1 l2 f Hrun H1 H2 Hf)
      as (pts & c & m' & Hpts & Hc & Hmax' & Hs1 & Hs2 & Hg1 & _ & Hg3 & Hg4 & _).
    rewrite Hmax in Hmax'. injection Hmax' as <-.
    destruct (timestep_finite c m l1 l2 f Hm Hl1 Hl2)
      as (Es1 & Es2 & _ & _ & Eg1 & Eg3 & Eg4 & _).
    rewrite Es1 in Hs1. rewrite Es2 in Hs2. rewrite Eg1 in Hg1.
    rewrite Eg3 in Hg3. rewrite Eg4 in Hg4.
    exists pts, c. do 5 eexists.
    split; [exact Hpts|]. split; [exact Hc|].
    do 5 (split; [eassumption|]).
    split; [reflexivity|]. split; [reflexivity|].
    pose proof zone1_capacity_nonzero as Z1.
    pose proof zone2_capacity_nonzero as Z2.
    set (c1 := G1_cap) in *. set (c2 := G2_cap) in *.
    set (c3 := G3_cap) in *. set (c4 := G4_cap) in *.
    split; [|split]; field; repeat split; assumption.
  - intros d ext out t l1 l2 f Hrun H1 H2 Hf.
    destruct (scale_down_at d ext out t l1 l2 f Hrun H1 H2 Hf)
      as (pts & c & m & _ & _ & _ & Hs1 & Hs2 & Hg1 & _ & Hg3 & Hg4 & _).
    exists (sl1_t m l1), (sl2_t c l2), (G1_t m l1 f), (G3_t c l2 f),
      (G4_t c l2 f).
    do 5 (split; [assumption|]).
    unfold G1_t, G3_t, G4_t, tdz1_t, tdz2_t. fin_arith.
    split; [|split].
    + apply (share_assoc _ _ _ (sf1_t m l1) zone1_capacity_nonzero).
    + apply (share_assoc _ _ _ (sf2_t c l2) zone2_capacity_nonzero).
    + apply (share_assoc _ _ _ (sf2_t c l2) zone2_capacity_nonzero).
  - cbv zeta.
    repeat split; repeat constructor; vm_compute; reflexivity.
Qed.

Lemma capacity_allocation_witness :
  exists out s1 s2 g1 g3 g4,
    scale_down day0 extremes0 = Ok out
    /\ nth_error (scaled_load1 out) 0 = Some (fin s1)
    /\ nth_error (scaled_load2 out) 0 = Some (fin s2)
    /\ nth_error (scaled_G1 out) 0 = Some (fin g1)
    /\ nth_error (scaled_G3 out) 0 = Some (fin g3)
    /\ nth_error (scaled_G4 out) 0 = Some (fin g4)
    /\ s1 == base_load * 10 / 40
    /\ g1 == (10 + 1) * (G1_cap / (G1_cap + G2_cap)) * (s1 / 10)
    /\ g3 == (10 - 1) * (G3_cap / (G3_cap + G4_cap)) * (s2 / 10)
    /\ g4 == (10 - 1) * (G4_cap / (G3_cap + G4_cap)) * (s2 / 10).
Proof.
  destruct (scale_down day0 extremes0) as [out|e] eqn:E;
    [|vm_compute in E; discriminate].
  assert (N40 : ~ 40 == 0) by (intros H; vm_compute in H; discriminate).
  assert (N10 : ~ 10 == 0) by (intros H; vm_compute in H; discriminate).
  destruct (proj1 capacity_allocation day0 extremes0 out 0%nat 10 10 1 40
                  E eq_refl eq_refl eq_refl eq_refl N40 N10 N10)
    as (pts & c & s1 & s2 & g1 & g3 & g4 & _ & _ & Hs1 & Hs2 & Hg1 & Hg3 & Hg4
        & Es1 & _ & Eg1 & Eg3 & Eg4).
  exists out, s1, s2, g1, g3, g4. repeat split; assumption.
Defined.

(** C9.  At every timestep the residual G2 is
    [scaled_load1 + scaled_load2 - G1 - G3 - G4]; hence, wherever the
    values are finite, the four generators add up to the sum of the two
    scaled zone demands.  Only this aggregate is conserved: one residual
    balances the pair of zones, and with a transfer between the zones
    neither zone balances on its own. *)
Theorem aggregate_conservation :
  (forall d ext out t l1 l2 f,
      scale_down d ext = Ok out ->
      nth_error (load1 d) t = Some l1 ->
      nth_error (load2 d) t = Some l2 ->
      nth_error (hourly_flow d) t = Some f ->
      exists g1 g2 g3 g4 s1 s2 : F,
        nth_error (scaled_G1 out) t = Some g1
        /\ nth_error (scaled_G2 out) t = Some g2
        /\ nth_error (scaled_G3 out) t = Some g3
        /\ nth_error (scaled_G4 out) t = Some g4
        /\ nth_error (scaled_load1 out) t = Some s1
        /\ nth_error (scaled_load2 out) t = Some s2
        /\ g2 = (s1 + s2 - g1 - g3 - g4)%F)
  /\ (forall d ext out t l1 l2 f m,
      scale_down d ext = Ok out ->
      nth_error (load1 d) t = Some l1 ->
      nth_error (load2 d) t = Some l2 ->
      nth_error (hourly_flow d) t = Some f ->
      np_max (load1 d) = Ok m ->
      ~ m == 0 -> ~ l1 == 0 -> ~ l2 == 0 ->
      exists g1 g2 g3 g4 s1 s2,
        nth_error (scaled_G1 out) t = Some (fin g1)
        /\ nth_error (scaled_G2 out) t = Some (fin g2)
        /\ nth_error (scaled_G3 out) t = Some (fin g3)
        /\ nth_error (scaled_G4 out) t = Some (fin g4)
        /\ nth_error (scaled_load1 out) t = Some (fin s1)
        /\ nth_error (scaled_load2 out) t = Some (fin s2)
        /\ g2 == s1 + s2 - g1 - g3 - g4
        /\ g1 + g2 + g3 + g4 == s1 + s2)
  /\ (exists out g1 g2 g3 g4 s1 s2,
        scale_down day0 extremes0 = Ok out
        /\ nth_error (scaled_G1 out) 0 = Some (fin g1)
        /\ nth_error (scaled_G2 out) 0 = Some (fin g2)
        /\ nth_error (scaled_G3 out) 0 = Some (fin g3)
        /\ nth_error (scaled_G4 out) 0 = Some (fin g4)
        /\ nth_error (scaled_load1 out) 0 = Some (fin s1)
        /\ nth_error (scaled_load2 out) 0 = Some (fin s2)
        /\ ~ g1 + g2 == s1
        /\ ~ g3 + g4 == s2).
Proof.
  split; [|split].
  - intros d ext out t l1 l2 f Hrun H1 H2 Hf.
    destruct (scale_down_at d ext out t l1 l2 f Hrun H1 H2 Hf)
      as (pts & c & m & _ & _ & _ & Hs1 & Hs2 & Hg1 & Hg2 & Hg3 & Hg4 & _).
    do 6 eexists.
    do 6 (split; [eassumption|]).
    reflexivity.
  - intros d ext out t l1 l2 f m Hrun H1 H2 Hf Hmax Hm Hl1 Hl2.
    destruct (scale_down_at d ext out t l1 l2 f Hrun H1 H2 Hf)
      as (pts & c & m' & _ & _ & Hmax' & Hs1 & Hs2 & Hg1 & Hg2 & Hg3 & Hg4 & _).
    rewrite Hmax in Hmax'. injection Hmax' as <-.
    destruct (timestep_finite c m l1 l2 f Hm Hl1 Hl2)
      as (Es1 & Es2 & _ & _ & Eg1 & Eg3 & Eg4 & Eg2).
    rewrite Es1 in Hs1. rewrite Es2 in Hs2. rewrite Eg1 in Hg1.
    rewrite Eg2 in Hg2. rewrite Eg3 in Hg3. rewrite Eg4 in Hg4.
    do 6 eexists.
    do 6 (split; [eassumption|]).
    split; [reflexivity | ring].
  - destruct day0_first_hour
      as (out & g1 & g2 & g3 & g4 & s1 & s2 & H & Hg1 & Hg2 & Hg3 & Hg4
          & Hs1 & Hs2 & _ & N1 & N2 & _).
    exists out, g1, g2, g3, g4, s1, s2. repeat split; assumption.
Qed.

Lemma aggregate_conservation_witness :
  exists out g1 g2 g3 g4 s1 s2,
    scale_down day0 extremes0 = Ok out
    /\ nth_error (scaled_G1 out) 1 = Some (fin g1)
    /\ nth_error (scaled_G2 out) 1 = Some (fin g2)
    /\ nth_error (scaled_G3 out) 1 = Some (fin g3)
    /\ nth_error (scaled_G4 out) 1 = Some (fin g4)
    /\ nth_error (scaled_load1 out) 1 = Some (fin s1)
    /\ nth_error (scaled_load2 out) 1 = Some (fin s2)
    /\ g1 + g2 + g3 + g4 == s1 + s2.
Proof.
  destruct (scale_down day0 extremes0) as [out|e] eqn:E;
    [|vm_compute in E; discriminate].
  assert (N40 : ~ 40 == 0) by (intros H; vm_compute in H; discriminate).
  assert (N20 : ~ 20 == 0) by (intros H; vm_compute in H; discriminate).
  destruct (proj1 (proj2 aggregate_conservation)
                  day0 extremes0 out 1%nat 20 20 1 40
                  E eq_refl eq_refl eq_refl eq_refl N40 N20 N20)
    as (g1 & g2 & g3 & g4 & s1 & s2 & H1 & H2 & H3 & H4 & H5 & H6 & _ & H).
  exists out, g1, g2, g3, g4, s1, s2. repeat split; assumption.
Defined.

(** C1, refuted as stated.  In the first hour of [day0] zone 1 does not
    balance (G1 alone, or G1 with the residual G2, against scaled_load1)
    and zone 2 does not either (G3 + G4, with or without G2, against
    scaled_load2). *)
Lemma zone_conservation_counterexample :
  exists out g1 g2 g3 g4 s1 s2,
    scale_down day0 extremes0 = Ok out
    /\ nth_error (scaled_G1 out) 0 = Some (fin g1)
    /\ nth_error (scaled_G2 out) 0 = Some (fin g2)
    /\ nth_error (scaled_G3 out) 0 = Some (fin g3)
    /\ nth_error (scaled_G4 out) 0 = Some (fin g4)
    /\ nth_error (scaled_load1 out) 0 = Some (fin s1)
    /\ nth_error (scaled_load2 out) 0 = Some (fin s2)
    /\ ~ g1 == s1
    /\ ~ g1 + g2 == s1
    /\ ~ g3 + g4 == s2
    /\ ~ g3 + g4 + g2 == s2.
Proof. exact day0_first_hour. Qed.

(** C1, amended.  At every timestep with finite values each zone balances
    up to the scaled transfer [hourly_flow[t] * scaling_factor2[t]], where
    [scaling_factor2[t] = scaled_load2[t] / load2[t]]: zone 1 with the
    residual, G1 + G2, gives scaled_load1 plus that transfer, and zone 2,
    G3 + G4, gives scaled_load2 minus it. *)
Theorem zone_conservation_up_to_transfer
        (d : day) (ext : Prober.extremes) (out : scaled) (t : nat)
        (l1 l2 f m : Q) :
  scale_down d ext = Ok out ->
  nth_error (load1 d) t = Some l1 ->
  nth_error (load2 d) t = Some l2 ->
  nth_error (hourly_flow d) t = Some f ->
  np_max (load1 d) = Ok m ->
  ~ m == 0 -> ~ l1 == 0 -> ~ l2 == 0 ->
  exists g1 g2 g3 g4 s1 s2,
    nth_error (scaled_G1 out) t = Some (fin g1)
    /\ nth_error (scaled_G2 out) t = Some (fin g2)
    /\ nth_error (scaled_G3 out) t = Some (fin g3)
    /\ nth_error (scaled_G4 out) t = Some (fin g4)
    /\ nth_error (scaled_load1 out) t = Some (fin s1)
    /\ nth_error (scaled_load2 out) t = Some (fin s2)
    /\ g1 + g2 == s1 + f * (s2 / l2)
    /\ g3 + g4 == s2 - f * (s2 / l2).
Proof.
  intros Hrun H1 H2 Hf Hmax Hm Hl1 Hl2.
  destruct (scale_down_at d ext out t l1 l2 f Hrun H1 H2 Hf)
    as (pts & c & m' & _ & _ & Hmax' & Hs1 & Hs2 & Hg1 & Hg2 & Hg3 & Hg4 & _).
  rewrite Hmax in Hmax'. injection Hmax' as <-.
  destruct (timestep_finite c m l1 l2 f Hm Hl1 Hl2)
    as (Es1 & Es2 & _ & _ & Eg1 & Eg3 & Eg4 & Eg2).
  rewrite Es1 in Hs1. rewrite Es2 in Hs2. rewrite Eg1 in Hg1.
  rewrite Eg2 in Hg2. rewrite Eg3 in Hg3. rewrite Eg4 in Hg4.
  do 6 eexists.
  do 6 (split; [eassumption|]).
  pose proof zone2_capacity_nonzero as Hcap.
  set (c3 := G3_cap) in *. set (c4 := G4_cap) in *.
  pose proof zone1_capacity_nonzero as Hcap1.
  split; field; repeat split; assumption.
Qed.

Lemma zone_conservation_up_to_transfer_witness :
  exists out g1 g2 g3 g4 s1 s2,
    scale_down day0 extremes0 = Ok out
    /\ nth_error (scaled_G1 out) 1 = Some (fin g1)
    /\ nth_error (scaled_G2 out) 1 = Some (fin g2)
    /\ nth_error (scaled_G3 out) 1 = Some (fin g3)
    /\ nth_error (scaled_G4 out) 1 = Some (fin g4)
    /\ nth_error (scaled_load1 out) 1 = Some (fin s1)
    /\ nth_error (scaled_load2 out) 1 = Some (fin s2)
    /\ g1 + g2 == s1 + 1 * (s2 / 20)
    /\ g3 + g4 == s2 - 1 * (s2 / 20).
Proof.
  destruct (scale_down day0 extremes0) as [out|e] eqn:E;
    [|vm_compute in E; discriminate].
  assert (N40 : ~ 40 == 0) by (intros H; vm_compute in H; discriminate).
  assert (N20 : ~ 20 == 0) by (intros H; vm_compute in H; discriminate).
  destruct (zone_conservation_up_to_transfer
              day0 extremes0 out 1%nat 20 20 1 40
              E eq_refl eq_refl eq_refl eq_refl N40 N20 N20)
    as (g1 & g2 & g3 & g4 & s1 & s2 & H).
  exists out, g1, g2, g3, g4, s1, s2. split; [reflexivity | exact H].
Defined.

(** C7, refuted as stated.  The zone-1 series of [day_negative] has the
    nonzero maximum -10, and its scaled series holds the value 3868 at the
    last hour: the maximum of the scaled series is not the target peak
    967. *)
Lemma scale_to_peak_counterexample :
  exists out s,
    scale_down day_negative extremes0 = Ok out
    /\ np_max (load1 day_negative) = Ok (-10)
    /\ ~ -10 == 0
    /\ nth_error (scaled_load1 out) 2 = Some (fin s)
    /\ s == 3868
    /\ base_load < s.
Proof.
  do 2 eexists.
  split; [vm_compute; reflexivity|].
  split; [reflexivity|].
  split; [intros H; vm_compute in H; discriminate|].
  split; [vm_compute; reflexivity|].
  split; vm_compute; reflexivity.
Qed.

(** C7, amended.  For a raw series with nonzero maximum [m] the
    peak-anchored zone is rescaled by the one ratio [base_load / m]:
    [scaled[t] = raw[t] * base_load / m] at every [t], the scaling factor
    [scaled[t] / raw[t]] is that ratio wherever [raw[t]] is not 0, and the
    target peak [base_load] is the scaled value at the raw maximum.  It is
    the maximum of the scaled series when [m] is positive, and its minimum
    when [m] is negative. *)
Theorem scale_to_peak_uniform
        (d : day) (ext : Prober.extremes) (out : scaled) (m : Q) :
  scale_down d ext = Ok out ->
  np_max (load1 d) = Ok m ->
  ~ m == 0 ->
  (forall t l1,
      nth_error (load1 d) t = Some l1 ->
      exists s,
        nth_error (scaled_load1 out) t = Some (fin s)
        /\ s == l1 * base_load / m
        /\ (0 < m -> s <= base_load)
        /\ (m < 0 -> base_load <= s)
        /\ (~ l1 == 0 ->
            exists sf,
              nth_error (scaling_factor (map fin (load1 d)) (scaled_load1 out)) t
              = Some (fin sf)
              /\ sf == base_load / m))
  /\ (exists t s,
        nth_error (load1 d) t = Some m
        /\ nth_error (scaled_load1 out) t = Some (fin s)
        /\ s == base_load).
Proof.
  intros Hrun Hmax Hm.
  destruct (scale_down_load1 d ext out Hrun) as (m' & Hmax' & Hsl1).
  rewrite Hmax in Hmax'. injection Hmax' as <-.
  assert (Hat : forall t l1, nth_error (load1 d) t = Some l1 ->
                nth_error (scaled_load1 out) t = Some (fin (base_load * l1 / m))).
  { intros t l1 H1. rewrite Hsl1. unfold scale_to_peak.
    rewrite !nth_error_map, H1. cbn [option_map]. fin_arith.
    now rewrite (Fdiv_fin _ m Hm). }
  assert (Hbase : 0 < base_load) by reflexivity.
  split.
  - intros t l1 H1. exists (base_load * l1 / m).
    split; [now apply Hat|].
    assert (Hle : l1 <= m)
      by (apply (np_max_ge _ _ Hmax); eapply nth_error_In; exact H1).
    split; [field; exact Hm|]. split; [|split].
    + intros Hpos. apply Qle_shift_div_r; [exact Hpos|]. nra.
    + intros Hneg.
      assert (E : base_load * l1 / m == (base_load * - l1) / - m)
        by (field; exact Hm).
      rewrite E. apply Qle_shift_div_l; [lra | nra].
    + intros Hl1. exists (base_load * l1 / m / l1). split.
      * rewrite (scaling_factor_at _ _ t (fin l1) (fin (base_load * l1 / m))).
        -- now rewrite (Fdiv_fin _ l1 Hl1).
        -- now rewrite nth_error_map, H1.
        -- now apply Hat.
      * field. split; assumption.
  - destruct (In_nth_error _ _ (np_max_In _ _ Hmax)) as [t Ht].
    exists t, (base_load * m / m). split; [exact Ht|].
    split; [now apply Hat|]. field. exact Hm.
Qed.

Lemma scale_to_peak_uniform_witness :
  exists out s,
    scale_down day0 extremes0 = Ok out
    /\ nth_error (scaled_load1 out) 2 = Some (fin s)
    /\ s == base_load.
Proof.
  destruct (scale_down day0 extremes0) as [out|e] eqn:E;
    [|vm_compute in E; discriminate].
  assert (N40 : ~ 40 == 0) by (intros H; vm_compute in H; discriminate).
  destruct (proj1 (scale_to_peak_uniform day0 extremes0 out 40 E eq_refl N40)
                  2%nat 40 eq_refl)
    as (s & Hs & Es & _).
  exists out, s. split; [reflexivity|]. split; [exact Hs|].
  rewrite Es. reflexivity.
Defined.

(** C8, refuted as stated.  In the first hour of [day_reverse] both
    scaling factors are positive and the divisor [total1 + total2] is 20,
    but the transfer of 90 MW exceeds the demand of zone 2, so [total2] is
    negative: the tie-line estimate is negative although the historical
    limit is the positive 5. *)
Lemma tie_flow_sign_counterexample :
  exists out sf1 sf2 tie,
    scale_down day_reverse extremes0 = Ok out
    /\ nth_error (scaling_factor (map fin (load1 day_reverse)) (scaled_load1 out)) 0
       = Some (fin sf1)
    /\ nth_error (scaling_factor (map fin (load2 day_reverse)) (scaled_load2 out)) 0
       = Some (fin sf2)
    /\ 0 < sf1 /\ 0 < sf2
    /\ nth_error (total_dispatch_zone1 day_reverse) 0 = Some (fin 100)
    /\ nth_error (total_dispatch_zone2 day_reverse) 0 = Some (fin (-80))
    /\ ~ 100 + -80 == 0
    /\ nth_error (hourly_limit day_reverse) 0 = Some 5
    /\ nth_error (tie_rate out) 0 = Some (fin tie)
    /\ tie < 0
    /\ ~ same_sign tie 5.
Proof.
  do 4 eexists.
  split; [vm_compute; reflexivity|].
  do 2 (split; [vm_compute; reflexivity|]).
  do 2 (split; [reflexivity|]).
  do 2 (split; [vm_compute; reflexivity|]).
  split; [intros H; vm_compute in H; discriminate|].
  split; [reflexivity|].
  split; [vm_compute; reflexivity|].
  split; [reflexivity|].
  intros (H & _). specialize (H eq_refl). vm_compute in H. discriminate.
Qed.

(** C8, amended.  At every timestep where both scaling factors are
    positive, the two zone totals [total1 = load1 + flow] and
    [total2 = load2 - flow] do not have opposite signs and their sum is
    not 0, the tie-line estimate
    [limit * ((sf1 * total1 + sf2 * total2) / (2 * (total1 + total2))) / 2]
    has the sign of the historical limit. *)
Theorem tie_flow_sign
        (d : day) (ext : Prober.extremes) (out : scaled) (t : nat)
        (l1 l2 f lim sf1 sf2 : Q) :
  scale_down d ext = Ok out ->
  nth_error (load1 d) t = Some l1 ->
  nth_error (load2 d) t = Some l2 ->
  nth_error (hourly_flow d) t = Some f ->
  nth_error (hourly_limit d) t = Some lim ->
  nth_error (scaling_factor (map fin (load1 d)) (scaled_load1 out)) t
  = Some (fin sf1) ->
  nth_error (scaling_factor (map fin (load2 d)) (scaled_load2 out)) t
  = Some (fin sf2) ->
  0 < sf1 -> 0 < sf2 ->
  let total1 := l1 + f in
  let total2 := l2 - f in
  (0 <= total1 /\ 0 <= total2) \/ (total1 <= 0 /\ total2 <= 0) ->
  ~ total1 + total2 == 0 ->
  exists tie,
    nth_error (tie_rate out) t = Some (fin tie)
    /\ tie == lim * ((sf1 * total1 + sf2 * total2) / (2 * (total1 + total2))) / 2
    /\ same_sign tie lim.
Proof.
  intros Hrun H1 H2 Hf Hlim Hsf1 Hsf2 Hp1 Hp2 total1 total2 Hsign Hsum.
  destruct (scale_down_at d ext out t l1 l2 f Hrun H1 H2 Hf)
    as (pts & c & m & _ & _ & _ & Hs1 & Hs2 & _ & _ & _ & _ & Htie).
  specialize (Htie lim Hlim).
  rewrite (scaling_factor_at _ _ t (fin l1) (sl1_t m l1)) in Hsf1;
    [|now rewrite nth_error_map, H1 | exact Hs1].
  rewrite (scaling_factor_at _ _ t (fin l2) (sl2_t c l2)) in Hsf2;
    [|now rewrite nth_error_map, H2 | exact Hs2].
  apply Some_inj in Hsf1. apply Some_inj in Hsf2.
  destruct (Fdiv_inv _ _ _ Hsf1) as (Hl1 & x1 & Hx1 & E1).
  destruct (Fdiv_inv _ _ _ Hsf2) as (Hl2 & x2 & Hx2 & E2).
  unfold sl1_t in Hx1. rewrite Fmul_fin in Hx1.
  destruct (Fdiv_inv _ _ _ Hx1) as (Hm & x1' & Hx1' & E1').
  apply Some_inj in Hx1'. apply Some_inj in Hx2. subst x1' x2 x1.
  rewrite (tie_finite c m l1 l2 f lim Hm Hl1 Hl2 Hsum) in Htie.
  rewrite <- E1, <- E2 in Htie.
  fold total1 total2 in Htie.
  eexists. split; [exact Htie|]. split; [reflexivity|].
  set (factor := (sf1 * total1 + sf2 * total2) / (2 * (total1 + total2))).
  assert (Hfactor : 0 < factor).
  { unfold factor. destruct Hsign as [[Ha Hb]|[Ha Hb]].
    - apply Qdiv_pos; [|lra].
      assert (0 <= sf1 * total1) by (apply Qmult_le_0_compat; lra).
      assert (0 <= sf2 * total2) by (apply Qmult_le_0_compat; lra).
      destruct (Qlt_le_dec 0 total1) as [Hz|Hz].
      + assert (0 < sf1 * total1) by (apply Qmult_lt_0_compat; lra). lra.
      + assert (0 < total2) by lra.
        assert (0 < sf2 * total2) by (apply Qmult_lt_0_compat; lra). lra.
    - apply Qdiv_neg_neg; [|lra].
      assert (0 <= sf1 * - total1) by (apply Qmult_le_0_compat; lra).
      assert (0 <= sf2 * - total2) by (apply Qmult_le_0_compat; lra).
      destruct (Qlt_le_dec total1 0) as [Hz|Hz].
      + assert (0 < sf1 * - total1) by (apply Qmult_lt_0_compat; lra). lra.
      + assert (total2 < 0) by lra.
        assert (0 < sf2 * - total2) by (apply Qmult_lt_0_compat; lra). lra. }
  assert (Hhalf : lim * factor / 2 == lim * (factor / 2)) by (field).
  assert (Hf2 : 0 < factor / 2) by (apply Qdiv_pos; [exact Hfactor | reflexivity]).
  unfold same_sign. rewrite Hhalf. repeat split.
  - intros Hl. apply Qmult_lt_0_compat; assumption.
  - intros Hl. nra.
  - intros Hl. rewrite Hl. ring.
Qed.

Lemma tie_flow_sign_witness :
  exists out tie,
    scale_down day0 extremes0 = Ok out
    /\ nth_error (tie_rate out) 1 = Some (fin tie)
    /\ same_sign tie 5.
Proof.
  destruct (scale_down day0 extremes0) as [out|e] eqn:E;
    [|vm_compute in E; discriminate].
  assert (Hout : out = match scale_down day0 extremes0 with
                       | Ok o => o
                       | Raise _ => out
                       end) by (now rewrite E).
  destruct (nth_error (scaling_factor (map fin (load1 day0)) (scaled_load1 out)) 1)
    as [[sf1|]|] eqn:E1;
    [| rewrite Hout in E1; vm_compute in E1; discriminate
     | rewrite Hout in E1; vm_compute in E1; discriminate].
  destruct (nth_error (scaling_factor (map fin (load2 day0)) (scaled_load2 out)) 1)
    as [[sf2|]|] eqn:E2;
    [| rewrite Hout in E2; vm_compute in E2; discriminate
     | rewrite Hout in E2; vm_compute in E2; discriminate].
  assert (P1 : 0 < sf1).
  { rewrite Hout in E1. vm_compute in E1. injection E1 as <-. reflexivity. }
  assert (P2 : 0 < sf2).
  { rewrite Hout in E2. vm_compute in E2. injection E2 as <-. reflexivity. }
  destruct (tie_flow_sign day0 extremes0 out 1%nat 20 20 1 5 sf1 sf2
              E eq_refl eq_refl eq_refl eq_refl E1 E2 P1 P2)
    as (tie & Htie & _ & Hsame).
  - left. split; vm_compute; discriminate.
  - intros H. vm_compute in H. discriminate.
  - exists out, tie. split; [reflexivity|]. split; assumption.
Defined.

End ScalerClaims.


(** * Further properties of [find_extreme_points] *)

Module ProberExtras.
Import Prober ProberFacts Examples Scenarios.

(** *** Reading and writing the grid *)

Lemma fold_read_load_acc (name : string) (ls : list load) (acc : option (Q * Q)) :
  fold_left
    (fun acc l =>
       if String.eqb (load_name l) name then Some (load_P l, load_Q l) else acc)
    ls acc
  = match fold_left
            (fun acc l =>
               if String.eqb (load_name l) name
               then Some (load_P l, load_Q l) else acc)
            ls None with
    | Some v => Some v
    | None => acc
    end.
Proof.
  revert acc. induction ls as [|l ls IH]; intros acc; cbn [fold_left].
  - reflexivity.
  - destruct (String.eqb (load_name l) name).
    + rewrite (IH (Some _)).
      now destruct (fold_left _ ls None).
    + apply IH.
Qed.

Lemma fold_read_generator_acc (name : string) (gs : list generator)
      (acc : option Q) :
  fold_left
    (fun acc x => if String.eqb (gen_name x) name then Some (gen_P x) else acc)
    gs acc
  = match fold_left
            (fun acc x =>
               if String.eqb (gen_name x) name then Some (gen_P x) else acc)
            gs None with
    | Some v => Some v
    | None => acc
    end.
Proof.
  revert acc. induction gs as [|x gs IH]; intros acc; cbn [fold_left].
  - reflexivity.
  - destruct (String.eqb (gen_name x) name).
    + rewrite (IH (Some _)).
      now destruct (fold_left _ gs None).
    + apply IH.
Qed.

(** A load is found exactly when the grid has one of that name. *)
Lemma read_load_None (name : string) (g : grid) :
  read_load name g = None
  <-> forall l, In l (get_loads g) -> load_name l <> name.
Proof.
  unfold read_load. induction (get_loads g) as [|l ls IH]; cbn [fold_left].
  - split; [intros _ l [] | reflexivity].
  - rewrite fold_read_load_acc. destruct (String.eqb (load_name l) name) eqn:E.
    + split.
      * destruct (fold_left _ ls None); discriminate.
      * intros H. apply String.eqb_eq in E. exfalso. apply (H l); [now left | exact E].
    + apply String.eqb_neq in E. split.
      * intros H l' [<-|Hin]; [exact E|].
        destruct (fold_left _ ls None); [discriminate|].
        now apply IH.
      * intros H. assert (H' : forall l', In l' ls -> load_name l' <> name)
          by (intros l' Hin; apply H; now right).
        apply IH in H'. now rewrite H'.
Qed.

Lemma read_generator_None (name : string) (g : grid) :
  read_generator name g = None
  <-> forall x, In x (get_generators g) -> gen_name x <> name.
Proof.
  unfold read_generator. induction (get_generators g) as [|x gs IH]; cbn [fold_left].
  - split; [intros _ y [] | reflexivity].
  - rewrite fold_read_generator_acc.
    destruct (String.eqb (gen_name x) name) eqn:E.
    + split.
      * destruct (fold_left _ gs None); discriminate.
      * intros H. apply String.eqb_eq in E. exfalso. apply (H x); [now left | exact E].
    + apply String.eqb_neq in E. split.
      * intros H y [<-|Hin]; [exact E|].
        destruct (fold_left _ gs None); [discriminate|].
        now apply IH.
      * intros H. assert (H' : forall y, In y gs -> gen_name y <> name)
          by (intros y Hin; apply H; now right).
        apply IH in H'. now rewrite H'.
Qed.

(** Writing a load and reading it back. *)
Lemma read_write_load (name : string) (p q : Q) (g : grid) :
  read_load name (write_load name p q g)
  = match read_load name g with
    | Some _ => Some (p, q)
    | None => None
    end.
Proof.
  unfold read_load, write_load. cbn [get_loads].
  induction (Grid.get_loads g) as [|l ls IH]; cbn [map fold_left].
  - reflexivity.
  - rewrite fold_read_load_acc, IH.
    rewrite (fold_read_load_acc name ls
               (if String.eqb (load_name l) name then _ else None)).
    destruct (String.eqb (load_name l) name) eqn:E; cbn [load_name load_P load_Q].
    + rewrite E. now destruct (fold_left _ ls None).
    + rewrite E. now destruct (fold_left _ ls None).
Qed.

Lemma read_write_load_other (name name' : string) (p q : Q) (g : grid) :
  name' <> name ->
  read_load name' (write_load name p q g) = read_load name' g.
Proof.
  intros Hne. unfold read_load, write_load. cbn [get_loads].
  generalize (@None (Q * Q)).
  induction (Grid.get_loads g) as [|l ls IH]; intros acc; cbn [map fold_left].
  - reflexivity.
  - destruct (String.eqb (load_name l) name) eqn:E; cbn [load_name load_P load_Q].
    + apply String.eqb_eq in E.
      assert (E' : String.eqb (load_name l) name' = false)
        by (apply String.eqb_neq; congruence).
      rewrite E'. apply IH.
    + apply IH.
Qed.

Lemma read_write_generator (name : string) (p : Q) (g : grid) :
  read_generator name (write_generator name p g)
  = match read_generator name g with
    | Some _ => Some p
    | None => None
    end.
Proof.
  unfold read_generator, write_generator. cbn [get_generators].
  induction (Grid.get_generators g) as [|x gs IH]; cbn [map fold_left].
  - reflexivity.
  - rewrite fold_read_generator_acc, IH.
    rewrite (fold_read_generator_acc name gs
               (if String.eqb (gen_name x) name then _ else None)).
    destruct (String.eqb (gen_name x) name) eqn:E; cbn [gen_name gen_P].
    + rewrite E. now destruct (fold_left _ gs None).
    + rewrite E. now destruct (fold_left _ gs None).
Qed.

Lemma read_write_generator_other (name name' : string) (p : Q) (g : grid) :
  name' <> name ->
  read_generator name' (write_generator name p g) = read_generator name' g.
Proof.
  intros Hne. unfold read_generator, write_generator. cbn [get_generators].
  generalize (@None Q).
  induction (Grid.get_generators g) as [|x gs IH]; intros acc; cbn [map fold_left].
  - reflexivity.
  - destruct (String.eqb (gen_name x) name) eqn:E; cbn [gen_name gen_P].
    + apply String.eqb_eq in E.
      assert (E' : String.eqb (gen_name x) name' = false)
        by (apply String.eqb_neq; congruence).
      rewrite E'. apply IH.
    + apply IH.
Qed.

(** *** The loop *)

Lemma probe_loop_inv (fuel : nat) (pf : oracle) (inc : Q) :
  forall (g : grid) (st : locals) (calls : nat) res,
    probe_loop fuel pf inc g st calls = Some res ->
    exists k, (1 <= k <= fuel)%nat /\ first_divergence pf inc g st k.
Proof.
  induction fuel as [|fuel IH]; intros g st calls res H; [discriminate|].
  cbn [probe_loop] in H.
  destruct (pf (candidate g (advance inc st))) eqn:E.
  - destruct (IH _ _ _ _ H) as (k & Hk & Hok & Hbad).
    exists (S k). split; [lia|]. split.
    + intros [|[|i]] Hi; [lia| exact E |].
      rewrite probe_front. apply Hok. lia.
    + now rewrite probe_front.
  - exists 1%nat. split; [lia|]. split; [intros i Hi; lia | exact E].
Qed.

Lemma loadQ_after (i : nat) (inc : Q) (g : grid) (st : locals) :
  loadQ (snd (after i inc g st)) == loadQ st + inject_Z (Z.of_nat i) * inc.
Proof.
  induction i as [|i IH].
  - simpl. ring.
  - cbn [after]. destruct (after i inc g st) as [g' st'].
    cbn [snd commit advance loadQ] in *. rewrite IH.
    rewrite Nat2Z.inj_succ. unfold Z.succ. rewrite inject_Z_plus. ring.
Qed.

(** X1.  [find_extreme_points] returns a value exactly when the power flow
    accepts the first [k - 1] probes and rejects probe [k], for some
    [k >= 2] within the fuel.  The value then has the load of 9_1 as base,
    the load of probe [k - 1] as high point, that is the base plus
    [k - 1] steps of 10 MW, and the constant 1500 as no-transfer point,
    after [k + 1] power flows. *)
Theorem find_extreme_points_returns_iff
        (pf : oracle) (g : grid) (p q gn : Q) (fuel n : nat) (e : extremes) :
  read_load "9_1" g = Some (p, q) ->
  read_generator "1_1" g = Some gn ->
  let st0 := mkLocals p q gn None None in
  find_extreme_points fuel pf g = Some (mkRun (Ok e) n)
  <-> exists k,
      (2 <= k <= fuel)%nat
      /\ first_divergence pf load_increment g st0 k
      /\ n = S k
      /\ base e = p
      /\ high e = loadP (snd (after (k - 1) load_increment g st0))
      /\ high e == p + inject_Z (Z.of_nat (k - 1)) * load_increment
      /\ no_transfer e = 1500.
Proof.
  intros Hl Hg st0. unfold find_extreme_points. rewrite Hl, Hg. fold st0.
  split.
  - destruct (probe_loop fuel pf load_increment g st0 1) as [[[g' st] c]|] eqn:E;
      [|discriminate].
    destruct (probe_loop_inv _ _ _ _ _ _ _ E) as (k & Hk & Hdiv).
    destruct k as [|k]; [lia|].
    rewrite (probe_loop_first_divergence k fuel) in E by (assumption || lia).
    injection E as <- <- <-.
    cbn [roll_back advance load_h load_no].
    destruct k as [|k].
    + cbn [after snd st0 load_h read bind]. discriminate.
    + destruct (load_h_after k load_increment g st0) as [Hh Hn].
      rewrite Hh, Hn. cbn [read bind]. intros [= <- <-].
      exists (S (S k)). replace (S (S k) - 1)%nat with (S k) by lia.
      cbn [base high no_transfer].
      split; [lia|]. split; [exact Hdiv|].
      do 3 (split; [reflexivity|]).
      split; [|reflexivity].
      exact (loadP_after (S k) load_increment g st0).
  - intros (k & Hk & Hdiv & -> & Hb & Hh & _ & Hn).
    destruct k as [|[|k]]; try lia.
    rewrite (probe_loop_first_divergence (S k) fuel) by (assumption || lia).
    cbn [roll_back advance load_h load_no].
    destruct (load_h_after k load_increment g st0) as [Hh' Hn'].
    rewrite Hh', Hn'. cbn [read bind].
    replace (S (S k) - 1)%nat with (S k) in Hh by lia.
    destruct e as [b h nt]. cbn [base high no_transfer] in *. subst.
    reflexivity.
Qed.

Lemma find_extreme_points_returns_iff_witness :
  exists e,
    find_extreme_points 3 (diverges_at 1030) (two_areas 1000 700)
    = Some (mkRun (Ok e) 4)
    /\ high e == 1020.
Proof.
  exists (mkExtremes 1000 1020 1500). split; [|reflexivity].
  apply (proj2 (find_extreme_points_returns_iff
                  (diverges_at 1030) (two_areas 1000 700) 1000 100 700
                  3 4 (mkExtremes 1000 1020 1500) eq_refl eq_refl)).
  exists 3%nat. split; [lia|]. split.
  - split.
    + intros i Hi.
      destruct i as [|[|[|i]]]; [lia | reflexivity | reflexivity | lia].
    + reflexivity.
  - repeat split; reflexivity.
Defined.

(** X2.  The loop has no bound of its own: as long as the power flow
    accepts every probe made so far, the call has not returned and has
    raised nothing; it only goes on probing. *)
Theorem find_extreme_points_runs_on
        (pf : oracle) (g : grid) (p q gn : Q) (fuel : nat) :
  read_load "9_1" g = Some (p, q) ->
  read_generator "1_1" g = Some gn ->
  (forall i, (1 <= i <= fuel)%nat ->
             pf (probe i load_increment g (mkLocals p q gn None None)) = true) ->
  find_extreme_points fuel pf g = None.
Proof.
  intros Hl Hg Hok. unfold find_extreme_points. rewrite Hl, Hg.
  replace fuel with (fuel + 0)%nat at 1 by lia.
  rewrite probe_loop_converged by exact Hok.
  reflexivity.
Qed.

Lemma find_extreme_points_runs_on_witness :
  find_extreme_points 50 always_converges (two_areas 1000 700) = None.
Proof.
  apply (find_extreme_points_runs_on always_converges (two_areas 1000 700)
                                     1000 100 700 50 eq_refl eq_refl).
  intros i Hi. reflexivity.
Defined.

(** X3.  When the grid has no load named 9_1, or no generator named 1_1,
    the call ends in [UnboundLocalError] after the base-case power flow
    alone: no probe is made, whatever the power flow would answer. *)
Theorem find_extreme_points_missing_device
        (pf : oracle) (g : grid) (fuel : nat) :
  (forall l, In l (Grid.get_loads g) -> load_name l <> "9_1"%string)
  \/ (forall x, In x (Grid.get_generators g) -> gen_name x <> "1_1"%string) ->
  find_extreme_points fuel pf g = Some (mkRun (Raise UnboundLocalError) 1).
Proof.
  intros [H|H]; unfold find_extreme_points.
  - apply read_load_None in H. now rewrite H.
  - apply read_generator_None in H. rewrite H.
    now destruct (read_load "9_1" g) as [[p q]|].
Qed.

Lemma find_extreme_points_missing_device_witness :
  find_extreme_points 5 always_converges no_load_9
  = Some (mkRun (Raise UnboundLocalError) 1).
Proof.
  apply find_extreme_points_missing_device. left.
  intros l [<-|[]]. discriminate.
Defined.

Lemma read_load_candidate (name : string) (g : grid) (st : locals) :
  read_load name (candidate g st)
  = read_load name (write_load "9_1" (loadP st) (loadQ st) g).
Proof. reflexivity. Qed.

Lemma read_generator_candidate (name : string) (g : grid) (st : locals) :
  read_generator name (candidate g st)
  = read_generator name (write_generator "1_1" (gen st) g).
Proof. reflexivity. Qed.

(** The grid of every probe still has the load and the generator, and
    every other device reads as in the loaded grid. *)
Lemma probe_frame (i : nat) (inc : Q) (g : grid) (st : locals) :
  (read_load "9_1" g <> None -> read_load "9_1" (probe i inc g st) <> None)
  /\ (read_generator "1_1" g <> None ->
      read_generator "1_1" (probe i inc g st) <> None)
  /\ (forall n, n <> "9_1"%string ->
                read_load n (probe i inc g st) = read_load n g)
  /\ (forall n, n <> "1_1"%string ->
                read_generator n (probe i inc g st) = read_generator n g).
Proof.
  unfold probe. induction i as [|i IH]; [cbn; tauto|].
  cbn [after]. destruct (after i inc g st) as [g' st']. cbn [fst] in *.
  destruct IH as (IHl & IHg & IHol & IHog).
  repeat split.
  - intros H. rewrite read_load_candidate, read_write_load.
    specialize (IHl H). now destruct (read_load "9_1" g').
  - intros H. rewrite read_generator_candidate, read_write_generator.
    specialize (IHg H). now destruct (read_generator "1_1" g').
  - intros n Hn. rewrite read_load_candidate, read_write_load_other by exact Hn.
    now apply IHol.
  - intros n Hn.
    rewrite read_generator_candidate, read_write_generator_other by exact Hn.
    now apply IHog.
Qed.

(** X4.  What the power flow is asked at probe [i >= 1]: the loaded grid
    in which load 9_1 has the active and reactive power of the start plus
    [i] steps each and generator 1_1 has the current generation; every
    load and generator of another name reads as in the loaded grid. *)
Theorem probe_shows_candidate
        (i : nat) (inc : Q) (g : grid) (st : locals) :
  read_load "9_1" g <> None ->
  read_generator "1_1" g <> None ->
  let st_i := snd (after (S i) inc g st) in
  let g_i := probe (S i) inc g st in
  read_load "9_1" g_i = Some (loadP st_i, loadQ st_i)
  /\ read_generator "1_1" g_i = Some (gen st_i)
  /\ loadP st_i == loadP st + inject_Z (Z.of_nat (S i)) * inc
  /\ loadQ st_i == loadQ st + inject_Z (Z.of_nat (S i)) * inc
  /\ (forall n, n <> "9_1"%string -> read_load n g_i = read_load n g)
  /\ (forall n, n <> "1_1"%string ->
                read_generator n g_i = read_generator n g).
Proof.
  intros Hl Hg st_i g_i.
  destruct (probe_frame i inc g st) as (Fl & Fg & _ & _).
  destruct (probe_frame (S i) inc g st) as (_ & _ & Fol & Fog).
  specialize (Fl Hl). specialize (Fg Hg).
  assert (Hread :
    read_load "9_1" g_i = Some (loadP st_i, loadQ st_i)
    /\ read_generator "1_1" g_i = Some (gen st_i)).
  { unfold g_i, st_i, probe in *. cbn [after].
    destruct (after i inc g st) as [g' st']. cbn [fst snd] in *.
    rewrite read_load_candidate, read_write_load.
    rewrite read_generator_candidate, read_write_generator.
    destruct (read_load "9_1" g'); [|contradiction].
    destruct (read_generator "1_1" g'); [|contradiction].
    split; reflexivity. }
  destruct Hread as [Hrl Hrg].
  split; [exact Hrl|]. split; [exact Hrg|].
  split; [apply loadP_after|]. split; [apply loadQ_after|].
  split; assumption.
Qed.

Lemma probe_shows_candidate_witness :
  read_load "9_1" (probe 2 10 (two_areas 1000 700)
                         (mkLocals 1000 100 700 None None))
  = Some (1020, 120).
Proof.
  assert (L : read_load "9_1" (two_areas 1000 700) <> None) by discriminate.
  assert (G : read_generator "1_1" (two_areas 1000 700) <> None) by discriminate.
  exact (proj1 (probe_shows_candidate
                  1 10 (two_areas 1000 700) (mkLocals 1000 100 700 None None) L G)).
Defined.

(** X5.  What the loop keeps, for a step that is not negative: reactive
    and active load move together; the generation never falls and never
    rises by more than the load has; and a generation that was changed at
    all stays below the ceiling 9999 plus one step. *)
Theorem probe_locals_invariant (i : nat) (inc : Q) (g : grid) (st : locals) :
  0 <= inc ->
  let st_i := snd (after i inc g st) in
  loadQ st_i - loadP st_i == loadQ st - loadP st
  /\ gen st <= gen st_i
  /\ gen st_i - gen st <= loadP st_i - loadP st
  /\ (gen st_i = gen st \/ gen st_i < 9999 + inc).
Proof.
  intros Hinc. cbv zeta. induction i as [|i IH].
  - cbn [after snd]. split; [ring|]. split; [apply Qle_refl|].
    split; [lra | now left].
  - cbn [after]. destruct (after i inc g st) as [g' st']. cbn [snd] in *.
    destruct IH as (I1 & I2 & I3 & I4).
    cbn [commit advance loadP loadQ gen].
    destruct (Qle_bool 9999 (gen st')) eqn:E; cbn [negb].
    + split; [lra|]. split; [exact I2|]. split; [lra | exact I4].
    + assert (Hlt : gen st' < 9999).
      { destruct (Qlt_le_dec (gen st') 9999) as [H|H]; [exact H|].
        apply Qle_bool_iff in H. congruence. }
      split; [lra|]. split; [lra|]. split; [lra | right; lra].
Qed.

Lemma probe_locals_invariant_witness :
  let st := mkLocals 1000 100 9990 None None in
  let st_i := snd (after 5 10 (two_areas 1000 9990) st) in
  loadQ st_i - loadP st_i == loadQ st - loadP st
  /\ gen st <= gen st_i
  /\ gen st_i - gen st <= loadP st_i - loadP st
  /\ (gen st_i = gen st \/ gen st_i < 9999 + 10).
Proof.
  apply (probe_locals_invariant 5 10 (two_areas 1000 9990)
                                (mkLocals 1000 100 9990 None None)).
  discriminate.
Defined.

End ProberExtras.

(** * What [find_extreme_points] hands back *)

Module ProberReturn.
Import Prober ProberFacts ProberExtras Examples.

(** The grid of a probe shows the locals of that probe. *)
Lemma probe_reads (i : nat) (inc : Q) (g : grid) (st : locals) :
  read_load "9_1" g <> None ->
  read_generator "1_1" g <> None ->
  read_load "9_1" (probe (S i) inc g st)
  = Some (loadP (snd (after (S i) inc g st)), loadQ (snd (after (S i) inc g st)))
  /\ read_generator "1_1" (probe (S i) inc g st)
     = Some (gen (snd (after (S i) inc g st))).
Proof.
  intros Hl Hg.
  destruct (probe_frame i inc g st) as (Fl & Fg & _ & _).
  specialize (Fl Hl). specialize (Fg Hg).
  unfold probe in *. cbn [after].
  destruct (after i inc g st) as [g' st']. cbn [fst snd] in *.
  rewrite read_load_candidate, read_write_load.
  rewrite read_generator_candidate, read_write_generator.
  destruct (read_load "9_1" g'); [|contradiction].
  destruct (read_generator "1_1" g'); [|contradiction].
  split; reflexivity.
Qed.

(** One converged iteration: the load goes up by a step, the generation
    goes up with it below the ceiling and stays where it is from the
    ceiling on. *)
Lemma after_step (i : nat) (inc : Q) (g : grid) (st : locals) :
  let a := snd (after i inc g st) in
  let b := snd (after (S i) inc g st) in
  loadP b == loadP a + inc
  /\ loadQ b == loadQ a + inc
  /\ (gen a < 9999 -> gen b == gen a + inc)
  /\ (9999 <= gen a -> gen b = gen a).
Proof.
  cbv zeta. cbn [after]. destruct (after i inc g st) as [g' st'].
  cbn [snd commit advance loadP loadQ gen].
  split; [reflexivity|]. split; [reflexivity|]. split.
  - intros Hlt. destruct (Qle_bool 9999 (gen st')) eqn:E; [|reflexivity].
    apply Qle_bool_iff in E. lra.
  - intros Hge. apply Qle_bool_iff in Hge. now rewrite Hge.
Qed.

(** C3, amended.  While probing, each converged iteration adds one step to
    the load, and one step to the generation only while the generation is
    below the ceiling 9999; from the ceiling on only the load advances.
    When the power flow first rejects probe [k >= 2], the load is rolled
    back by exactly one step and the call returns loads only: its high
    point is exactly the load of probe [k - 1], the last state that the
    power flow evaluated as converged, one step below the rejected load.
    No generation is returned; the generation left in the loop equals its
    value at the last converged probe when that value is below the
    ceiling. *)
Theorem find_extreme_points_returns_last_converged_load
        (pf : oracle) (g : grid) (p q gn : Q) (k fuel : nat) :
  read_load "9_1" g = Some (p, q) ->
  read_generator "1_1" g = Some gn ->
  let st0 := mkLocals p q gn None None in
  first_divergence pf load_increment g st0 k ->
  (2 <= k)%nat -> (k <= fuel)%nat ->
  let last := snd (after (k - 1) load_increment g st0) in
  (forall i,
      let a := snd (after i load_increment g st0) in
      let b := snd (after (S i) load_increment g st0) in
      loadP b == loadP a + load_increment
      /\ (gen a < 9999 -> gen b == gen a + load_increment)
      /\ (9999 <= gen a -> gen b = gen a))
  /\ pf (probe (k - 1) load_increment g st0) = true
  /\ read_load "9_1" (probe (k - 1) load_increment g st0)
     = Some (loadP last, loadQ last)
  /\ read_generator "1_1" (probe (k - 1) load_increment g st0)
     = Some (gen last)
  /\ find_extreme_points fuel pf g
     = Some (mkRun (Ok (mkExtremes p (loadP last) 1500)) (S k))
  /\ loadP last
     == p + inject_Z (Z.of_nat k) * load_increment - load_increment
  /\ exists g' st,
      probe_loop fuel pf load_increment g st0 1 = Some (g', st, S k)
      /\ loadP st == loadP last
      /\ loadQ st == loadQ last
      /\ (gen last < 9999 -> gen st == gen last).
Proof.
  intros Hl Hg st0 Hdiv Hk Hfuel last. subst last.
  destruct k as [|[|k]]; try lia.
  change (S (S k) - 1)%nat with (S k).
  set (last := snd (after (S k) load_increment g st0)).
  assert (Nl : read_load "9_1" g <> None) by (rewrite Hl; discriminate).
  assert (Ng : read_generator "1_1" g <> None) by (rewrite Hg; discriminate).
  destruct (probe_reads k load_increment g st0 Nl Ng) as [Rl Rg].
  pose proof (probe_loop_first_divergence (S k) fuel pf load_increment g st0 1
                Hdiv Hfuel) as Hloop.
  fold last in Hloop, Rl, Rg.
  split.
  { intros i. destruct (after_step i load_increment g st0) as (A & _ & B & C).
    cbv zeta. split; [exact A|]. split; [exact B | exact C]. }
  split; [apply Hdiv; lia|].
  split; [exact Rl|]. split; [exact Rg|].
  split.
  { unfold find_extreme_points. rewrite Hl, Hg. fold st0. rewrite Hloop.
    cbn [roll_back advance load_h load_no].
    destruct (load_h_after k load_increment g st0) as [Hh Hn].
    fold last in Hh, Hn. rewrite Hh, Hn. reflexivity. }
  split.
  { unfold last. rewrite loadP_after. cbn [loadP st0].
    rewrite !Nat2Z.inj_succ. unfold Z.succ. rewrite !inject_Z_plus. ring. }
  do 2 eexists. split; [exact Hloop|].
  cbn [roll_back advance loadP loadQ gen].
  split; [ring|]. split; [ring|].
  intros Hlt. destruct (Qle_bool 9999 (gen last)) eqn:E.
  - apply Qle_bool_iff in E. lra.
  - cbn [negb]. ring.
Qed.

Lemma find_extreme_points_returns_last_converged_load_witness :
  find_extreme_points 3 (diverges_at 1030) (two_areas 1000 700)
  = Some (mkRun (Ok (mkExtremes 1000 1020 1500)) 4)
  /\ read_load "9_1" (probe 2 load_increment (two_areas 1000 700)
                         (mkLocals 1000 100 700 None None))
     = Some (1020, 120).
Proof.
  assert (Hdiv : first_divergence (diverges_at 1030) load_increment
                   (two_areas 1000 700) (mkLocals 1000 100 700 None None) 3).
  { split.
    - intros i Hi.
      destruct i as [|[|[|i]]]; [lia | reflexivity | reflexivity | lia].
    - reflexivity. }
  destruct (find_extreme_points_returns_last_converged_load
              (diverges_at 1030) (two_areas 1000 700) 1000 100 700 3 3
              eq_refl eq_refl Hdiv)
    as (_ & _ & Hread & _ & Hrun & _); [lia | lia |].
  split; [exact Hrun | exact Hread].
Defined.

End ProberReturn.


(** * Further properties of [scale_down] *)

Module ScalerExtras.
Import Scaler ScalerFacts Examples Scenarios.

(** *** Minimum, sum and mean *)

Lemma fold_Qmin_le (l : list Q) (x0 : Q) :
  fold_left Qmin l x0 <= x0 /\ forall x, In x l -> fold_left Qmin l x0 <= x.
Proof.
  revert x0. induction l as [|y l IH]; intros x0.
  - split; [apply Qle_refl | intros x []].
  - cbn [fold_left]. destruct (IH (Qmin x0 y)) as [H0 Hin].
    assert (Hx0 : Qmin x0 y <= x0 /\ Qmin x0 y <= y).
    { unfold Qmin. destruct (Qle_bool x0 y) eqn:E.
      - apply Qle_bool_iff in E. split; [apply Qle_refl | exact E].
      - split; [|apply Qle_refl].
        destruct (Qlt_le_dec y x0) as [Hlt|Hle]; [now apply Qlt_le_weak|].
        apply Qle_bool_iff in Hle. congruence. }
    destruct Hx0 as [Ha Hb]. split.
    + eapply Qle_trans; eassumption.
    + intros x [<-|Hx]; [eapply Qle_trans; eassumption | now apply Hin].
Qed.

Lemma fold_Qmin_In (l : list Q) (x0 : Q) : In (fold_left Qmin l x0) (x0 :: l).
Proof.
  revert x0. induction l as [|y l IH]; intros x0.
  - now left.
  - cbn [fold_left]. destruct (IH (Qmin x0 y)) as [H|H].
    + unfold Qmin in H at 1. destruct (Qle_bool x0 y).
      * left. exact H.
      * right. left. exact H.
    + right. right. exact H.
Qed.

Lemma np_min_le (l : list Q) (m : Q) :
  np_min l = Ok m -> forall x, In x l -> m <= x.
Proof.
  destruct l as [|x0 l]; [discriminate|]. intros [= <-] x [<-|Hx].
  - apply (proj1 (fold_Qmin_le l x0)).
  - now apply (proj2 (fold_Qmin_le l x0)).
Qed.

Lemma np_min_In (l : list Q) (m : Q) : np_min l = Ok m -> In m l.
Proof.
  destruct l as [|x0 l]; [discriminate|]. intros [= <-]. apply fold_Qmin_In.
Qed.

Lemma fold_Qplus_acc (l : list Q) (a : Q) :
  fold_left Qplus l a == a + fold_left Qplus l 0.
Proof.
  revert a. induction l as [|x l IH]; intros a; cbn [fold_left].
  - ring.
  - rewrite (IH (a + x)), (IH (0 + x)). ring.
Qed.

Lemma np_sum_cons (x : Q) (l : list Q) : np_sum (x :: l) == x + np_sum l.
Proof.
  unfold np_sum. cbn [fold_left]. rewrite fold_Qplus_acc. ring.
Qed.

Local Abbreviation count l := (inject_Z (Z.of_nat (List.length l))).

Lemma count_cons (x : Q) (l : list Q) : count (x :: l) == count l + 1.
Proof.
  cbn [List.length]. rewrite Nat2Z.inj_succ. unfold Z.succ.
  rewrite inject_Z_plus. reflexivity.
Qed.

Lemma count_nonneg (l : list Q) : 0 <= count l.
Proof.
  change 0 with (inject_Z 0). rewrite <- Zle_Qle. lia.
Qed.

Lemma np_sum_le (l : list Q) (M : Q) :
  (forall x, In x l -> x <= M) -> np_sum l <= count l * M.
Proof.
  induction l as [|y l IH]; intros H.
  - change (0 <= 0 * M). lra.
  - rewrite np_sum_cons, count_cons.
    assert (y <= M) by (apply H; now left).
    assert (np_sum l <= count l * M) by (apply IH; intros x Hx; apply H; now right).
    lra.
Qed.

Lemma np_sum_lt (l : list Q) (M : Q) :
  (forall x, In x l -> x <= M) ->
  (exists x, In x l /\ x < M) ->
  np_sum l < count l * M.
Proof.
  induction l as [|y l IH]; intros H (x & Hx & Hlt); [destruct Hx|].
  rewrite np_sum_cons, count_cons.
  assert (Hy : y <= M) by (apply H; now left).
  assert (Hl : forall z, In z l -> z <= M) by (intros z Hz; apply H; now right).
  pose proof (np_sum_le l M Hl) as Hle.
  destruct Hx as [<-|Hx].
  - lra.
  - assert (np_sum l < count l * M) by (apply IH; [exact Hl | now exists x]).
    lra.
Qed.

Lemma np_sum_ge (l : list Q) (m : Q) :
  (forall x, In x l -> m <= x) -> count l * m <= np_sum l.
Proof.
  induction l as [|y l IH]; intros H.
  - change (0 * m <= 0). lra.
  - rewrite np_sum_cons, count_cons.
    assert (m <= y) by (apply H; now left).
    assert (count l * m <= np_sum l) by (apply IH; intros x Hx; apply H; now right).
    lra.
Qed.

Lemma np_sum_gt (l : list Q) (m : Q) :
  (forall x, In x l -> m <= x) ->
  (exists x, In x l /\ m < x) ->
  count l * m < np_sum l.
Proof.
  induction l as [|y l IH]; intros H (x & Hx & Hlt); [destruct Hx|].
  rewrite np_sum_cons, count_cons.
  assert (Hy : m <= y) by (apply H; now left).
  assert (Hl : forall z, In z l -> m <= z) by (intros z Hz; apply H; now right).
  pose proof (np_sum_ge l m Hl) as Hle.
  destruct Hx as [<-|Hx].
  - lra.
  - assert (count l * m < np_sum l) by (apply IH; [exact Hl | now exists x]).
    lra.
Qed.

(** The mean of a series that is not constant lies strictly between its
    minimum and its maximum. *)
Lemma mean_strictly_inside (l : list Q) (lo hi : Q) :
  np_min l = Ok lo -> np_max l = Ok hi ->
  (exists x y, In x l /\ In y l /\ ~ x == y) ->
  exists mean, np_mean l = fin mean /\ lo < mean /\ mean < hi.
Proof.
  intros Hmin Hmax (x & y & Hx & Hy & Hxy).
  pose proof (np_min_le _ _ Hmin) as Hlo.
  pose proof (np_max_ge _ _ Hmax) as Hhi.
  destruct l as [|z l]; [destruct Hx|].
  rewrite np_mean_nonempty. eexists. split; [reflexivity|].
  assert (Hn : 0 < count (z :: l))
    by (rewrite count_cons; pose proof (count_nonneg l); lra).
  assert (Hbelow : exists w, In w (z :: l) /\ w < hi).
  { destruct (Qlt_le_dec x hi) as [H|H]; [now exists x|].
    destruct (Qlt_le_dec y hi) as [H'|H']; [now exists y|].
    exfalso. apply Hxy.
    pose proof (Hhi x Hx). pose proof (Hhi y Hy). lra. }
  assert (Habove : exists w, In w (z :: l) /\ lo < w).
  { destruct (Qlt_le_dec lo x) as [H|H]; [now exists x|].
    destruct (Qlt_le_dec lo y) as [H'|H']; [now exists y|].
    exfalso. apply Hxy.
    pose proof (Hlo x Hx). pose proof (Hlo y Hy). lra. }
  pose proof (np_sum_lt _ _ Hhi Hbelow) as Hs1.
  pose proof (np_sum_gt _ _ Hlo Habove) as Hs2.
  split.
  - apply Qlt_shift_div_l; [exact Hn | lra].
  - apply Qlt_shift_div_r; [exact Hn | lra].
Qed.

(** *** The fit *)

Lemma fit_distinct (x0 x1 x2 y0 y1 y2 : Q) :
  ~ x0 == x1 -> ~ x0 == x2 -> ~ x1 == x2 ->
  exists c, fit ((x0, y0), (x1, y1), (x2, y2)) = Ok c.
Proof.
  intros H01 H02 H12.
  destruct (linalg_solve_correct
              (system_matrix ((x0, y0), (x1, y1), (x2, y2)))
              (right_hand_side ((x0, y0), (x1, y1), (x2, y2)))) as (c & Hc & _).
  - rewrite det3_system_matrix. cbn [fst]. intros H.
    apply Qmult_integral in H as [H|H]; [|lra].
    apply Qmult_integral in H as [H|H]; lra.
  - now exists c.
Qed.

(** Coefficients that [fit] returns pass through the three points. *)
Lemma fit_passes_through (p0 p1 p2 : point) (c : vec3) :
  fit (p0, p1, p2) = Ok c ->
  evaluate c (fst p0) == snd p0
  /\ evaluate c (fst p1) == snd p1
  /\ evaluate c (fst p2) == snd p2.
Proof.
  intros Hfit. unfold fit in Hfit.
  destruct (Qeq_dec (det3 (system_matrix (p0, p1, p2))) 0) as [Hd|Hd].
  - rewrite linalg_solve_singular in Hfit by exact Hd. discriminate.
  - destruct (linalg_solve_correct _ (right_hand_side (p0, p1, p2)) Hd)
      as (c' & Hc' & Hsol).
    rewrite Hc' in Hfit. injection Hfit as <-.
    destruct c' as [[a b] k].
    unfold vec_eq, mat_vec, system_matrix, right_hand_side in Hsol.
    destruct Hsol as (E0 & E1 & E2). unfold evaluate. repeat split.
    + rewrite <- E0. ring.
    + rewrite <- E1. ring.
    + rewrite <- E2. ring.
Qed.

Lemma evaluate_Qeq (c : vec3) (x y : Q) : x == y -> evaluate c x == evaluate c y.
Proof.
  intros H. destruct c as [[a b] k]. unfold evaluate. now rewrite H.
Qed.

(** X6.  Which days [scale_down] accepts.  An empty [load2] raises
    [ValueError]; a [load2] whose samples are all equal (a single sample
    included) raises [LinAlgError]; otherwise an empty [load1] raises
    [ValueError]; every other day gives a result, whatever the flows, the
    limits and the extremes are. *)
Theorem scale_down_outcome (d : day) (ext : Prober.extremes) :
  (load2 d = [] -> scale_down d ext = Raise ValueError)
  /\ (load2 d <> [] ->
      (forall x y, In x (load2 d) -> In y (load2 d) -> x == y) ->
      scale_down d ext = Raise LinAlgError)
  /\ ((exists x y, In x (load2 d) /\ In y (load2 d) /\ ~ x == y) ->
      load1 d = [] ->
      scale_down d ext = Raise ValueError)
  /\ ((exists x y, In x (load2 d) /\ In y (load2 d) /\ ~ x == y) ->
      load1 d <> [] ->
      exists out, scale_down d ext = Ok out).
Proof.
  split; [|split; [|split]].
  - intros E. unfold scale_down, calibration_points. now rewrite E.
  - intros Hne Hconst.
    destruct (load2 d) as [|z l] eqn:E; [contradiction|].
    destruct (np_max (z :: l)) as [hi|] eqn:Emax; [|discriminate].
    destruct (np_min (z :: l)) as [lo|] eqn:Emin; [|discriminate].
    assert (Hsame : hi == lo)
      by (apply Hconst; [eapply np_max_In | eapply np_min_In]; eassumption).
    unfold scale_down, calibration_points. rewrite E, Emax, Emin.
    rewrite np_mean_nonempty. cbn [bind fin]. unfold fit.
    rewrite linalg_solve_singular; [reflexivity|].
    rewrite det3_system_matrix. cbn [fst]. rewrite Hsame. ring.
  - intros Hvar E1.
    destruct (load2 d) as [|z l] eqn:E; [destruct Hvar as (x & _ & [] & _)|].
    destruct (np_max (z :: l)) as [hi|] eqn:Emax; [|discriminate].
    destruct (np_min (z :: l)) as [lo|] eqn:Emin; [|discriminate].
    destruct (mean_strictly_inside _ _ _ Emin Emax Hvar) as (mean & Hmean & Hlo & Hhi).
    unfold scale_down, calibration_points. rewrite E, Emax, Emin, Hmean.
    cbn [bind fin].
    destruct (fit_distinct mean hi lo (Prober.base ext) (Prober.high ext)
                           (Prober.no_transfer ext)) as [c Hc]; try lra.
    rewrite Hc. cbn [bind]. now rewrite E1.
  - intros Hvar H1.
    destruct (load2 d) as [|z l] eqn:E; [destruct Hvar as (x & _ & [] & _)|].
    destruct (np_max (z :: l)) as [hi|] eqn:Emax; [|discriminate].
    destruct (np_min (z :: l)) as [lo|] eqn:Emin; [|discriminate].
    destruct (mean_strictly_inside _ _ _ Emin Emax Hvar) as (mean & Hmean & Hlo & Hhi).
    unfold scale_down, calibration_points. rewrite E, Emax, Emin, Hmean.
    cbn [bind fin].
    destruct (fit_distinct mean hi lo (Prober.base ext) (Prober.high ext)
                           (Prober.no_transfer ext)) as [c Hc]; try lra.
    rewrite Hc. cbn [bind].
    destruct (load1 d) as [|w l1]; [contradiction|].
    cbn [np_max bind]. eexists. reflexivity.
Qed.

Lemma scale_down_outcome_witness :
  scale_down day_flat extremes0 = Raise LinAlgError
  /\ exists out, scale_down day_ragged extremes0 = Ok out.
Proof.
  split.
  - apply (proj1 (proj2 (scale_down_outcome day_flat extremes0))).
    + discriminate.
    + intros x y Hx Hy. cbn in Hx, Hy.
      destruct Hx as [<-|[<-|[<-|[]]]]; destruct Hy as [<-|[<-|[<-|[]]]];
        reflexivity.
  - apply (proj2 (proj2 (proj2 (scale_down_outcome day_ragged extremes0)))).
    + exists 10, 20. cbn. split; [now left|]. split; [right; now left|].
      discriminate.
    + discriminate.
Defined.

(** X7.  The lengths of the series that [scale_down] returns.  The two
    scaled demands keep the lengths of their raw series; each generator
    series is cut to the shortest of the series it is computed from, the
    residual G2 and the tie-line rating to the shortest of all; the time
    stamps are handed on as they are. *)
Theorem scale_down_lengths (d : day) (ext : Prober.extremes) (out : scaled) :
  scale_down d ext = Ok out ->
  let n1 := List.length (load1 d) in
  let n2 := List.length (load2 d) in
  let nf := List.length (hourly_flow d) in
  let nl := List.length (hourly_limit d) in
  List.length (scaled_load1 out) = n1
  /\ List.length (scaled_load2 out) = n2
  /\ List.length (scaled_G1 out) = Nat.min n1 nf
  /\ List.length (scaled_G3 out) = Nat.min n2 nf
  /\ List.length (scaled_G4 out) = Nat.min n2 nf
  /\ List.length (scaled_G2 out) = Nat.min n1 (Nat.min n2 nf)
  /\ List.length (tie_rate out) = Nat.min nl (Nat.min n1 (Nat.min n2 nf))
  /\ time out = time_stamps d.
Proof.
  intros Hrun. unfold scale_down in Hrun.
  destruct (calibration_points d ext) as [pts|]; [|discriminate].
  cbn [bind] in Hrun.
  destruct (fit pts) as [c|]; [|discriminate]. cbn [bind] in Hrun.
  destruct (np_max (load1 d)) as [m|]; [|discriminate]. cbn [bind] in Hrun.
  injection Hrun as <-. cbv zeta.
  cbn [scaled_load1 scaled_load2 scaled_G1 scaled_G2 scaled_G3 scaled_G4
       tie_rate time].
  unfold residual, p_tie_scaled, factor_tie, apply_factor, scaling_factor,
    scale_to_peak, capacity_share, evaluate_series, total_dispatch_zone1,
    total_dispatch_zone2, zip.
  repeat rewrite ?length_map, ?length_combine.
  repeat split; lia.
Qed.

Lemma scale_down_lengths_witness :
  exists out,
    scale_down day_ragged extremes0 = Ok out
    /\ List.length (scaled_load1 out) = 4%nat
    /\ List.length (scaled_G1 out) = 2%nat
    /\ List.length (tie_rate out) = 1%nat.
Proof.
  destruct (scale_down day_ragged extremes0) as [out|e] eqn:E;
    [|vm_compute in E; discriminate].
  destruct (scale_down_lengths day_ragged extremes0 out E)
    as (H1 & _ & H3 & _ & _ & _ & H7 & _).
  exists out. repeat split; assumption.
Defined.

(** X8.  The capacity split hands out the whole zone total: for two
    capacities whose sum is not 0, the two shares of every sample add up to
    that sample (as G1 and G2, or G3 and G4, do before scaling).  When the
    capacities add up to 0, every share is non-finite. *)
Theorem capacity_shares_add_up (c1 c2 : Q) (zone_total : list F) :
  (~ c1 + c2 == 0 ->
   Forall2 Feq
     (map (fun '(a, b) => (a + b)%F)
          (zip (capacity_share c1 (c1 + c2) zone_total)
               (capacity_share c2 (c1 + c2) zone_total)))
     zone_total)
  /\ (c1 + c2 == 0 ->
      Forall (fun x => x = None) (capacity_share c1 (c1 + c2) zone_total)
      /\ Forall (fun x => x = None) (capacity_share c2 (c1 + c2) zone_total)).
Proof.
  split.
  - intros Hc. induction zone_total as [|x zt IH]; [constructor|].
    cbn [capacity_share map zip combine]. constructor; [|exact IH].
    destruct x as [q|]; [|exact I].
    fin_arith. rewrite !(Fdiv_fin _ _ Hc). fin_arith. cbn. field. exact Hc.
  - intros Hc. split.
    + induction zone_total as [|x zt IH]; constructor; [|exact IH].
      now apply Fdiv_zero.
    + induction zone_total as [|x zt IH]; constructor; [|exact IH].
      now apply Fdiv_zero.
Qed.

Lemma capacity_shares_add_up_witness :
  Forall2 Feq
    (map (fun '(a, b) => (a + b)%F)
         (zip (capacity_share G3_cap (G3_cap + G4_cap) [fin 100; None; fin 7])
              (capacity_share G4_cap (G3_cap + G4_cap) [fin 100; None; fin 7])))
    [fin 100; None; fin 7].
Proof.
  apply (proj1 (capacity_shares_add_up G3_cap G4_cap [fin 100; None; fin 7])).
  discriminate.
Defined.

(** X9.  The quadratic anchors zone 2 to the extremes: at every hour whose
    raw [load2] equals the maximum of the day the scaled demand is the
    high point of the prober, and at every hour of minimal raw demand it
    is the no-transfer point; both hours exist. *)
Theorem scaled_load2_anchors
        (d : day) (ext : Prober.extremes) (out : scaled) (hi lo : Q) :
  scale_down d ext = Ok out ->
  np_max (load2 d) = Ok hi ->
  np_min (load2 d) = Ok lo ->
  (forall t l2,
      nth_error (load2 d) t = Some l2 ->
      exists s,
        nth_error (scaled_load2 out) t = Some (fin s)
        /\ (l2 == hi -> s == Prober.high ext)
        /\ (l2 == lo -> s == Prober.no_transfer ext))
  /\ (exists t, nth_error (load2 d) t = Some hi)
  /\ (exists t, nth_error (load2 d) t = Some lo).
Proof.
  intros Hrun Hmax Hmin. unfold scale_down in Hrun.
  destruct (calibration_points d ext) as [pts|] eqn:Epts; [|discriminate].
  cbn [bind] in Hrun.
  destruct (fit pts) as [c|] eqn:Ec; [|discriminate]. cbn [bind] in Hrun.
  destruct (np_max (load1 d)) as [m|]; [|discriminate]. cbn [bind] in Hrun.
  injection Hrun as <-. cbn [scaled_load2].
  unfold calibration_points in Epts. rewrite Hmax, Hmin in Epts.
  cbn [bind] in Epts.
  destruct (np_mean (load2 d)) as [mean|]; [|discriminate].
  injection Epts as <-.
  destruct (fit_passes_through _ _ _ _ Ec) as (_ & Ehi & Elo).
  cbn [fst snd] in Ehi, Elo.
  split; [|split].
  - intros t l2 Ht. exists (evaluate c l2). split.
    + unfold evaluate_series. now rewrite nth_error_map, Ht.
    + split; intros E; rewrite (evaluate_Qeq c _ _ E); assumption.
  - apply In_nth_error. eapply np_max_In. exact Hmax.
  - apply In_nth_error. eapply np_min_In. exact Hmin.
Qed.

Lemma scaled_load2_anchors_witness :
  exists out s,
    scale_down day0 extremes0 = Ok out
    /\ nth_error (scaled_load2 out) 2 = Some (fin s)
    /\ s == 1300.
Proof.
  destruct (scale_down day0 extremes0) as [out|e] eqn:E;
    [|vm_compute in E; discriminate].
  destruct (proj1 (scaled_load2_anchors day0 extremes0 out 60 10
                                        E eq_refl eq_refl) 2%nat 60 eq_refl)
    as (s & Hs & Hhi & _).
  exists out, s. split; [reflexivity|]. split; [exact Hs|].
  apply Hhi. reflexivity.
Defined.

(** *** Where the non-finite values come from *)

Lemma fin_not_None (q : Q) : fin q = None <-> False.
Proof. split; [discriminate | intros []]. Qed.

Lemma Fmul_None (x y : F) : (x * y)%F = None <-> x = None \/ y = None.
Proof.
  destruct x, y; cbn; split; try discriminate; intuition discriminate.
Qed.

Lemma Fadd_None (x y : F) : (x + y)%F = None <-> x = None \/ y = None.
Proof.
  destruct x, y; cbn; split; try discriminate; intuition discriminate.
Qed.

Lemma Fsub_None (x y : F) : (x - y)%F = None <-> x = None \/ y = None.
Proof.
  destruct x, y; cbn; split; try discriminate; intuition discriminate.
Qed.

Lemma Fdiv_None (x : F) (b : Q) : (x / fin b)%F = None <-> x = None \/ b == 0.
Proof.
  destruct x as [a|]; unfold Fdiv, fin.
  - destruct (Qeq_bool b 0) eqn:E.
    + apply Qeq_bool_iff in E. tauto.
    + apply Qeq_bool_neq in E. split; [discriminate|]. intros [H|H]; [discriminate | contradiction].
  - tauto.
Qed.

(** X10.  [scale_down] never raises on a zero divisor; it returns
    non-finite samples instead.  At a timestep the scaled load of zone 1
    is non-finite exactly when the maximum of [load1] is 0; G1 exactly when
    that maximum or [load1[t]] is 0; G3 and G4 exactly when [load2[t]] is
    0; the residual G2 when any of the three is 0; and the tie-line rating
    when any of them or [load1[t] + load2[t]] is 0 (the flow cancels in
    its divisor). *)
Theorem scale_down_non_finite
        (d : day) (ext : Prober.extremes) (out : scaled) (t : nat)
        (l1 l2 f lim m : Q) :
  scale_down d ext = Ok out ->
  nth_error (load1 d) t = Some l1 ->
  nth_error (load2 d) t = Some l2 ->
  nth_error (hourly_flow d) t = Some f ->
  nth_error (hourly_limit d) t = Some lim ->
  np_max (load1 d) = Ok m ->
  exists s1 g1 g2 g3 g4 tie : F,
    nth_error (scaled_load1 out) t = Some s1
    /\ nth_error (scaled_G1 out) t = Some g1
    /\ nth_error (scaled_G2 out) t = Some g2
    /\ nth_error (scaled_G3 out) t = Some g3
    /\ nth_error (scaled_G4 out) t = Some g4
    /\ nth_error (tie_rate out) t = Some tie
    /\ (s1 = None <-> m == 0)
    /\ (g1 = None <-> m == 0 \/ l1 == 0)
    /\ (g3 = None <-> l2 == 0)
    /\ (g4 = None <-> l2 == 0)
    /\ (g2 = None <-> m == 0 \/ l1 == 0 \/ l2 == 0)
    /\ (tie = None <-> m == 0 \/ l1 == 0 \/ l2 == 0 \/ l1 + l2 == 0).
Proof.
  intros Hrun H1 H2 Hf Hlim Hmax.
  destruct (scale_down_at d ext out t l1 l2 f Hrun H1 H2 Hf)
    as (pts & c & m' & _ & _ & Hmax' & Hs1 & _ & Hg1 & Hg2 & Hg3 & Hg4 & Htie).
  rewrite Hmax in Hmax'. injection Hmax' as <-.
  specialize (Htie lim Hlim).
  exists (sl1_t m l1), (G1_t m l1 f), (G2_t c m l1 l2 f), (G3_t c l2 f),
    (G4_t c l2 f), (tie_t c m l1 l2 f lim).
  do 6 (split; [assumption|]).
  pose proof zone1_capacity_nonzero as Z1.
  pose proof zone2_capacity_nonzero as Z2.
  assert (Es1 : sl1_t m l1 = None <-> m == 0).
  { unfold sl1_t. rewrite Fdiv_None, Fmul_None, !fin_not_None. tauto. }
  assert (Ef1 : sf1_t m l1 = None <-> m == 0 \/ l1 == 0).
  { unfold sf1_t. rewrite Fdiv_None, Es1. tauto. }
  assert (Ef2 : sf2_t c l2 = None <-> l2 == 0).
  { unfold sf2_t, sl2_t. rewrite Fdiv_None, fin_not_None. tauto. }
  assert (Ez1 : tdz1_t l1 f = None <-> False)
    by (unfold tdz1_t; rewrite Fadd_None, !fin_not_None; tauto).
  assert (Ez2 : tdz2_t l2 f = None <-> False)
    by (unfold tdz2_t; rewrite Fsub_None, !fin_not_None; tauto).
  assert (Eg1 : G1_t m l1 f = None <-> m == 0 \/ l1 == 0).
  { unfold G1_t. rewrite Fmul_None, Fdiv_None, Fmul_None, Ez1, Ef1, fin_not_None.
    tauto. }
  assert (Eg3 : G3_t c l2 f = None <-> l2 == 0).
  { unfold G3_t. rewrite Fmul_None, Fdiv_None, Fmul_None, Ez2, Ef2, fin_not_None.
    tauto. }
  assert (Eg4 : G4_t c l2 f = None <-> l2 == 0).
  { unfold G4_t. rewrite Fmul_None, Fdiv_None, Fmul_None, Ez2, Ef2, fin_not_None.
    tauto. }
  split; [exact Es1|]. split; [exact Eg1|]. split; [exact Eg3|].
  split; [exact Eg4|]. split.
  - unfold G2_t. rewrite !Fsub_None, Fadd_None, Es1, Eg1, Eg3, Eg4.
    unfold sl2_t. rewrite fin_not_None. tauto.
  - unfold tie_t, factor_tie_t.
    assert (Ed : (fin 2 * (tdz1_t l1 f + tdz2_t l2 f))%F
                 = fin (2 * ((l1 + f) + (l2 - f)))) by reflexivity.
    rewrite Ed.
    rewrite Fdiv_None, Fmul_None, Fdiv_None, Fadd_None, !Fmul_None.
    rewrite Ef1, Ef2, Ez1, Ez2, !fin_not_None.
    assert (Esum : 2 * (l1 + f + (l2 - f)) == 0 <-> l1 + l2 == 0)
      by (split; intros H; lra).
    assert (E2 : 2 == 0 <-> False) by (split; [discriminate | tauto]).
    rewrite Esum, E2. tauto.
Qed.

Lemma scale_down_non_finite_witness :
  exists out,
    scale_down day_zero extremes0 = Ok out
    /\ nth_error (scaled_G1 out) 0 = Some None
    /\ nth_error (scaled_G2 out) 0 = Some None
    /\ nth_error (tie_rate out) 0 = Some None.
Proof.
  destruct (scale_down day_zero extremes0) as [out|e] eqn:E;
    [|vm_compute in E; discriminate].
  destruct (scale_down_non_finite day_zero extremes0 out 0%nat 0 10 1 5 40
                                  E eq_refl eq_refl eq_refl eq_refl eq_refl)
    as (s1 & g1 & g2 & g3 & g4 & tie & _ & Hg1 & Hg2 & _ & _ & Htie & _ & E1
        & _ & _ & E2 & Et).
  exists out. split; [reflexivity|].
  assert (Z : 0 == 0) by reflexivity.
  rewrite (proj2 E1 (or_intror Z)) in Hg1.
  rewrite (proj2 E2 (or_intror (or_introl Z))) in Hg2.
  rewrite (proj2 Et (or_intror (or_introl Z))) in Htie.
  repeat split; assumption.
Defined.

(** X11.  [data_processing] hands the extremes of the prober to
    [scale_down]: when the power flow first rejects probe [k >= 2], the
    day is scaled with the load of 9_1 as base, that load plus [k - 1]
    steps as high point and 1500 as no-transfer point.  When the first
    probe is rejected, the run ends in [UnboundLocalError] and the day's
    data is never looked at. *)
Theorem data_processing_pipeline
        (pf : Prober.oracle) (g : Grid.grid) (p q gn : Q) (d : day) :
  read_load "9_1" g = Some (p, q) ->
  read_generator "1_1" g = Some gn ->
  let st0 := Prober.mkLocals p q gn None None in
  (forall k fuel,
      Prober.first_divergence pf Prober.load_increment g st0 k ->
      (2 <= k)%nat -> (k <= fuel)%nat ->
      exists h,
        data_processing fuel pf g d
        = Some (scale_down d (Prober.mkExtremes p h 1500))
        /\ h == p + inject_Z (Z.of_nat (k - 1)) * Prober.load_increment)
  /\ (pf (Prober.probe 1 Prober.load_increment g st0) = false ->
      forall fuel,
        data_processing (S fuel) pf g d = Some (Raise UnboundLocalError)).
Proof.
  intros Hl Hg st0. split.
  - intros k fuel Hdiv Hk Hfuel.
    destruct (ProberFacts.find_extreme_points_returns pf g p q gn k fuel
                Hl Hg Hdiv Hk Hfuel) as (h & Hrun & Hh).
    exists h. unfold data_processing. rewrite Hrun. cbn [Prober.outcome bind].
    split; [reflexivity|]. rewrite Hh.
    replace (Z.of_nat k) with (Z.of_nat (k - 1) + 1)%Z by lia.
    rewrite inject_Z_plus. ring.
  - intros Hbad fuel. unfold data_processing, Prober.find_extreme_points.
    rewrite Hl, Hg. cbn [Prober.probe_loop].
    unfold Prober.probe in Hbad. cbn [Prober.after fst] in Hbad.
    fold st0. rewrite Hbad. reflexivity.
Qed.

Lemma data_processing_pipeline_witness :
  data_processing 1 (diverges_at 1010) (two_areas 1000 700) day0
  = Some (Raise UnboundLocalError).
Proof.
  apply (proj2 (data_processing_pipeline
                  (diverges_at 1010) (two_areas 1000 700) 1000 100 700 day0
                  eq_refl eq_refl)).
  reflexivity.
Defined.

(** *** Rescaling the raw series *)

Lemma Qmax_Qeq (a a' b b' : Q) : a == a' -> b == b' -> Qmax a b == Qmax a' b'.
Proof.
  intros Ea Eb. unfold Qmax. rewrite (Qleb_comp _ _ Ea _ _ Eb).
  now destruct (Qle_bool a' b').
Qed.

Lemma fold_Qmax_Qeq (l : list Q) (a a' : Q) :
  a == a' -> fold_left Qmax l a == fold_left Qmax l a'.
Proof.
  revert a a'. induction l as [|x l IH]; intros a a' E; cbn [fold_left].
  - exact E.
  - apply IH. apply Qmax_Qeq; [exact E | reflexivity].
Qed.

Lemma Qmax_scale (k a b : Q) : 0 < k -> Qmax (k * a) (k * b) == k * Qmax a b.
Proof.
  intros Hk. unfold Qmax.
  destruct (Qle_bool a b) eqn:E.
  - apply Qle_bool_iff in E.
    assert (H : k * a <= k * b) by nra.
    apply Qle_bool_iff in H. rewrite H. reflexivity.
  - destruct (Qle_bool (k * a) (k * b)) eqn:E'; [|reflexivity].
    apply Qle_bool_iff in E'.
    destruct (Qlt_le_dec b a) as [Hlt|Hle].
    + exfalso. nra.
    + apply Qle_bool_iff in Hle. congruence.
Qed.

Lemma fold_Qmax_scale (k : Q) (l : list Q) (a : Q) :
  0 < k ->
  fold_left Qmax (map (Qmult k) l) (k * a) == k * fold_left Qmax l a.
Proof.
  intros Hk. revert a. induction l as [|x l IH]; intros a; cbn [map fold_left].
  - reflexivity.
  - rewrite (fold_Qmax_Qeq _ _ _ (Qmax_scale k a x Hk)). apply IH.
Qed.

(** X12.  The peak-anchored demand of zone 1 depends on the shape of the
    raw series only: multiplying every sample of [load1] by the same
    positive factor (another unit, say) leaves [scaled_load1] as it is. *)
Theorem scaled_load1_unit_free
        (d : day) (ext : Prober.extremes) (out out' : scaled) (k : Q) :
  0 < k ->
  let d' := mkDay (time_stamps d) (map (Qmult k) (load1 d)) (load2 d)
                  (hourly_flow d) (hourly_limit d) in
  scale_down d ext = Ok out ->
  scale_down d' ext = Ok out' ->
  Forall2 Feq (scaled_load1 out') (scaled_load1 out).
Proof.
  intros Hk d' Hrun Hrun'.
  destruct (scale_down_load1 d ext out Hrun) as (m & Hm & ->).
  destruct (scale_down_load1 d' ext out' Hrun') as (m' & Hm' & ->).
  cbn [load1 d'] in *.
  assert (Emax : m' == k * m).
  { destruct (load1 d) as [|x l]; [discriminate|].
    cbn [map np_max] in Hm, Hm'. injection Hm as <-. injection Hm' as <-.
    now apply fold_Qmax_scale. }
  clear Hm Hm' Hrun Hrun'.
  induction (load1 d) as [|x l IH]; cbn [map scale_to_peak]; constructor;
    [|exact IH].
  fin_arith. unfold Fdiv, fin.
  destruct (Qeq_bool m 0) eqn:E0.
  - apply Qeq_bool_iff in E0.
    assert (E0' : m' == 0) by (rewrite Emax, E0; ring).
    rewrite (Qeq_eq_bool _ _ E0'). exact I.
  - apply Qeq_bool_neq in E0.
    destruct (Qeq_bool m' 0) eqn:E0'.
    + apply Qeq_bool_iff in E0'. exfalso. rewrite Emax in E0'.
      apply Qmult_integral in E0' as [H|H]; [lra | contradiction].
    + cbn. rewrite Emax. field. split; [exact E0 | lra].
Qed.

Lemma scaled_load1_unit_free_witness :
  exists out out',
    scale_down day0 extremes0 = Ok out
    /\ scale_down (mkDay (time_stamps day0) (map (Qmult 1000) (load1 day0))
                         (load2 day0) (hourly_flow day0) (hourly_limit day0))
                  extremes0 = Ok out'
    /\ Forall2 Feq (scaled_load1 out') (scaled_load1 out).
Proof.
  destruct (scale_down day0 extremes0) as [out|e] eqn:E;
    [|vm_compute in E; discriminate].
  destruct (scale_down (mkDay (time_stamps day0) (map (Qmult 1000) (load1 day0))
                              (load2 day0) (hourly_flow day0) (hourly_limit day0))
                       extremes0) as [out'|e] eqn:E';
    [|vm_compute in E'; discriminate].
  exists out, out'. split; [reflexivity|]. split; [reflexivity|].
  apply (scaled_load1_unit_free day0 extremes0 out out' 1000); [reflexivity | exact E | exact E'].
Defined.

End ScalerExtras.


(** * Properties of [_download_with_retries] and of the file names *)

Module DownloadExtras.
Import Download Scenarios.

Section Retries.
Variable E : Type.
Variable net : nat -> option E.

Lemma retry_loop_success (n j : nat) :
  forall (last : option E) (tried slept : nat),
    (j < n)%nat ->
    (forall i, (tried <= i < tried + j)%nat -> net i <> None) ->
    net (tried + j) = None ->
    retry_loop E net n last tried slept
    = mkDownload Returned (S (tried + j)) (slept + j).
Proof.
  revert j. induction n as [|n IH]; intros j last tried slept Hj Hfail Hok;
    [lia|].
  cbn [retry_loop]. destruct j as [|j].
  - rewrite Nat.add_0_r in Hok. rewrite Hok. now rewrite !Nat.add_0_r.
  - destruct (net tried) as [e|] eqn:Et.
    + rewrite (IH j (Some e) (S tried) (S slept)).
      * f_equal; lia.
      * lia.
      * intros i Hi. apply Hfail. lia.
      * now replace (S tried + j)%nat with (tried + S j)%nat by lia.
    + exfalso. apply (Hfail tried); [lia | exact Et].
Qed.

Lemma retry_loop_failure (n : nat) :
  forall (last : option E) (tried slept : nat),
    (forall i, (tried <= i < tried + n)%nat -> net i <> None) ->
    retry_loop E net n last tried slept
    = mkDownload
        (match (match n with O => last | S n' => net (tried + n') end) with
         | Some e => Raised e
         | None => RaisedNone
         end)
        (tried + n) (slept + n).
Proof.
  induction n as [|n IH]; intros last tried slept Hfail.
  - cbn [retry_loop]. now rewrite !Nat.add_0_r.
  - cbn [retry_loop]. destruct (net tried) as [e|] eqn:Et.
    + rewrite IH by (intros i Hi; apply Hfail; lia).
      destruct n as [|n].
      * replace (tried + 0)%nat with tried by lia. rewrite Et. f_equal; lia.
      * replace (S tried + n)%nat with (tried + S n)%nat by lia.
        f_equal; lia.
    + exfalso. apply (Hfail tried); [lia | exact Et].
Qed.

(** X13.  A download that succeeds at call [j], after [j] failures, with
    [j] below the number of retries: the function returns after [j + 1]
    calls of [urlretrieve] and [j] sleeps, and raises nothing. *)
Theorem download_succeeds_at (retries : Z) (j : nat) :
  (Z.of_nat j < retries)%Z ->
  (forall i, (i < j)%nat -> net i <> None) ->
  net j = None ->
  download_with_retries E net retries = mkDownload Returned (S j) j.
Proof.
  intros Hj Hfail Hok. unfold download_with_retries.
  apply (retry_loop_success (Z.to_nat retries) j None 0 0).
  - lia.
  - intros i Hi. apply Hfail. lia.
  - exact Hok.
Qed.

(** X14.  A download whose calls all fail: with [retries >= 1] the
    function raises the exception of the last call, after exactly
    [retries] calls and as many sleeps (it also sleeps after the last
    failure).  With [retries <= 0] it makes no call at all and ends in
    [raise None]. *)
Theorem download_gives_up (retries : Z) :
  ((1 <= retries)%Z ->
   (forall i, (Z.of_nat i < retries)%Z -> net i <> None) ->
   exists e,
     net (Z.to_nat retries - 1) = Some e
     /\ download_with_retries E net retries
        = mkDownload (Raised e) (Z.to_nat retries) (Z.to_nat retries))
  /\ ((retries <= 0)%Z ->
      download_with_retries E net retries = mkDownload RaisedNone 0 0).
Proof.
  split.
  - intros Hr Hfail. unfold download_with_retries.
    rewrite retry_loop_failure by (intros i Hi; apply Hfail; lia).
    destruct (Z.to_nat retries) as [|n] eqn:En; [lia|].
    cbn [Nat.add]. replace (S n - 1)%nat with n by lia.
    destruct (net n) as [e|] eqn:Ee.
    + now exists e.
    + exfalso. apply (Hfail n); [lia | exact Ee].
  - intros Hr. unfold download_with_retries.
    replace (Z.to_nat retries) with 0%nat by lia. reflexivity.
Qed.

(** X15.  Whatever the network does, the function calls [urlretrieve] at
    most [retries] times, sleeps once after each failed call and never
    otherwise, and returns exactly when one of the first [retries] calls
    succeeds. *)
Theorem download_bounded (retries : Z) :
  let r := download_with_retries E net retries in
  (attempts r <= Z.to_nat retries)%nat
  /\ (ending_of r = Returned
      <-> exists j, (Z.of_nat j < retries)%Z /\ net j = None)
  /\ (ending_of r = Returned -> attempts r = S (sleeps r))
  /\ (ending_of r <> Returned ->
      attempts r = Z.to_nat retries /\ sleeps r = Z.to_nat retries).
Proof.
  cbv zeta.
  assert (Hcases :
    (exists j, (j < Z.to_nat retries)%nat /\ net j = None
               /\ forall i, (i < j)%nat -> net i <> None)
    \/ (forall i, (i < Z.to_nat retries)%nat -> net i <> None)).
  { induction (Z.to_nat retries) as [|n IH].
    - right. intros i Hi. lia.
    - destruct IH as [(j & Hj & Hok & Hfail)|Hfail].
      + left. exists j. repeat split; [lia | exact Hok | exact Hfail].
      + destruct (net n) as [e|] eqn:En.
        * right. intros i Hi.
          destruct (Nat.eq_dec i n) as [->|Hne]; [congruence | apply Hfail; lia].
        * left. exists n. repeat split; [lia | exact En | exact Hfail]. }
  destruct Hcases as [(j & Hj & Hok & Hfail)|Hfail].
  - unfold download_with_retries.
    rewrite (retry_loop_success (Z.to_nat retries) j None 0 0);
      [| exact Hj | intros i Hi; apply Hfail; lia | exact Hok].
    cbn [attempts sleeps ending_of Nat.add].
    split; [lia|]. split; [|split].
    + split; [|reflexivity]. intros _. exists j. split; [lia | exact Hok].
    + reflexivity.
    + intros Hne. now contradiction Hne.
  - unfold download_with_retries.
    rewrite retry_loop_failure by (intros i Hi; apply Hfail; lia).
    cbn [attempts sleeps ending_of Nat.add].
    assert (Hnot : (match (match Z.to_nat retries with
                            | O => None
                            | S n' => net n'
                            end) with
                    | Some e => Raised e
                    | None => RaisedNone
                    end) <> Returned).
    { destruct (Z.to_nat retries) as [|n]; [discriminate|].
      destruct (net n); discriminate. }
    split; [lia|]. split; [|split].
    + split; [intros Hr; contradiction|].
      intros (j & Hj & Hok). exfalso. apply (Hfail j); [lia | exact Hok].
    + intros Hr. contradiction.
    + intros _. split; reflexivity.
Qed.

End Retries.

Lemma download_succeeds_at_witness :
  download_with_retries nat third_time_lucky 3 = mkDownload Returned 3 2.
Proof.
  apply (download_succeeds_at nat third_time_lucky 3 2).
  - reflexivity.
  - intros i Hi. destruct i as [|[|i]]; [discriminate | discriminate | lia].
  - reflexivity.
Defined.

Lemma download_gives_up_witness :
  exists e,
    offline (Z.to_nat 3 - 1) = Some e
    /\ download_with_retries nat offline 3 = mkDownload (Raised e) 3 3.
Proof.
  apply (proj1 (download_gives_up nat offline 3)).
  - discriminate.
  - intros i Hi. discriminate.
Defined.

Lemma download_bounded_witness :
  attempts (download_with_retries nat offline 3) = 3%nat
  /\ sleeps (download_with_retries nat offline 3) = 3%nat.
Proof.
  apply (proj2 (proj2 (proj2 (download_bounded nat offline 3)))).
  discriminate.
Defined.

End DownloadExtras.


(** * Properties of the file names and of the workbook names *)

Module NamingExtras.
Import Download Workbook Scenarios.
Open Scope string_scope.

Lemma length_append (p s : string) :
  String.length (p ++ s) = (String.length p + String.length s)%nat.
Proof. induction p as [|c p IH]; cbn; [reflexivity | now rewrite IH]. Qed.

Lemma substring_prefix (p s : string) : substring 0 (String.length p) (p ++ s) = p.
Proof.
  induction p as [|c p IH]; cbn.
  - now destruct s.
  - now rewrite IH.
Qed.

Lemma append_cancel (p a b : string) : p ++ a = p ++ b -> a = b.
Proof.
  induction p as [|c p IH]; cbn; [tauto|]. intros [= H]. now apply IH.
Qed.

(** X16.  The organisers name their output after the stem of the raw
    file: for a forecast file [stem ++ "isolf.csv"] the base name is
    [stem_ZONE] with the zone in upper case, for an actual-load file
    [stem ++ "palIntegrated.csv"] it is [stem_zone].  A name that is not
    longer than the suffix is kept whole, extension included. *)
Theorem organiser_base_filenames (upper : string -> string) (stem zone : string) :
  stem <> "" ->
  forecast_base_filename upper (stem ++ "isolf.csv") zone
  = stem ++ "_" ++ upper zone
  /\ actual_base_filename (stem ++ "palIntegrated.csv") zone
     = stem ++ "_" ++ zone
  /\ (forall base, (String.length base <= 9)%nat ->
                   forecast_base_filename upper base zone
                   = base ++ "_" ++ upper zone)
  /\ (forall base, (String.length base <= 17)%nat ->
                   actual_base_filename base zone = base ++ "_" ++ zone).
Proof.
  intros Hstem.
  assert (Hlen : (0 < String.length stem)%nat)
    by (destruct stem; [contradiction | cbn; lia]).
  assert (Hstrip : forall k suffix z,
             String.length suffix = k ->
             base_filename k (stem ++ suffix) z = stem ++ "_" ++ z).
  { intros k suffix z Hk. unfold base_filename, drop_last.
    rewrite length_append, Hk.
    replace (k <? String.length stem + k)%nat with true
      by (symmetry; apply Nat.ltb_lt; lia).
    replace (String.length stem + k - k)%nat with (String.length stem) by lia.
    now rewrite substring_prefix. }
  assert (Hshort : forall k base z,
             (String.length base <= k)%nat ->
             base_filename k base z = base ++ "_" ++ z).
  { intros k base z Hk. unfold base_filename.
    replace (k <? String.length base)%nat with false
      by (symmetry; apply Nat.ltb_ge; exact Hk).
    reflexivity. }
  unfold forecast_base_filename, actual_base_filename.
  split; [now apply Hstrip|]. split; [now apply Hstrip|].
  split; intros base Hb; now apply Hshort.
Qed.

Lemma organiser_base_filenames_witness :
  forecast_base_filename (fun z => z) "20230801isolf.csv" "WEST"
  = "20230801_WEST".
Proof.
  apply (proj1 (organiser_base_filenames (fun z => z) "20230801" "WEST"
                                         ltac:(discriminate))).
Defined.

(** *** Default names *)

Lemma str_inj (n m : nat) : str n = str m -> n = m.
Proof.
  unfold str. intros H. apply Unsigned.to_uint_inj.
  assert (H' : Some (Nat.to_uint n) = Some (Nat.to_uint m))
    by (rewrite <- !NilEmpty.usu; now rewrite H).
  now injection H'.
Qed.

Lemma numbered_length (prefix : string) (n : nat) :
  List.length (numbered prefix n) = n.
Proof. unfold numbered. now rewrite length_map, length_seq. Qed.

Lemma numbered_NoDup (prefix : string) (n : nat) : NoDup (numbered prefix n).
Proof.
  unfold numbered. apply NoDup_map_NoDup_ForallPairs; [|apply seq_NoDup].
  intros i j _ _ H. apply append_cancel, str_inj in H.
  now apply Nat.add_cancel_r in H.
Qed.

(** X17.  [_names] always returns exactly [n] names.  They are the first
    [n] recorded names when at least [n] (and at least one) are recorded;
    otherwise all recorded names are dropped and the names are
    [prefix1 ... prefixn], which are pairwise distinct. *)
Theorem names_exactly_n (attr : list string) (n : nat) (prefix : string) :
  List.length (names attr n prefix) = n
  /\ (attr <> [] -> (n <= List.length attr)%nat ->
      names attr n prefix = firstn n attr)
  /\ (attr = [] \/ (List.length attr < n)%nat ->
      names attr n prefix = numbered prefix n
      /\ NoDup (names attr n prefix)
      /\ forall i, (i < n)%nat ->
                   nth_error (names attr n prefix) i
                   = Some (prefix ++ str (i + 1))).
Proof.
  assert (Hdefault : firstn n (numbered prefix n) = numbered prefix n)
    by (apply firstn_all2; rewrite numbered_length; lia).
  split; [|split].
  - unfold names.
    destruct attr as [|a attr]; cbn [orb].
    + now rewrite Hdefault, numbered_length.
    + destruct (List.length (a :: attr) <? n)%nat eqn:E.
      * now rewrite Hdefault, numbered_length.
      * apply Nat.ltb_ge in E. rewrite length_firstn. lia.
  - intros Hne Hn. unfold names.
    destruct attr as [|a attr]; [contradiction|]. cbn [orb].
    replace (List.length (a :: attr) <? n)%nat with false
      by (symmetry; apply Nat.ltb_ge; exact Hn).
    reflexivity.
  - intros H.
    assert (E : names attr n prefix = numbered prefix n).
    { unfold names. destruct H as [->|H]; [exact Hdefault|].
      destruct attr as [|a attr]; [exact Hdefault|]. cbn [orb].
      replace (List.length (a :: attr) <? n)%nat with true
        by (symmetry; apply Nat.ltb_lt; exact H).
      exact Hdefault. }
    rewrite E. split; [reflexivity|]. split; [apply numbered_NoDup|].
    intros i Hi. unfold numbered.
    rewrite nth_error_map, nth_error_seq.
    replace (i <? n)%nat with true by (symmetry; apply Nat.ltb_lt; exact Hi).
    reflexivity.
Qed.

Lemma names_exactly_n_witness :
  names ["L1"; "L2"] 3 "Branch" = ["Branch1"; "Branch2"; "Branch3"].
Proof.
  assert (H : ["L1"; "L2"] = [] \/ (List.length ["L1"; "L2"] < 3)%nat)
    by (right; cbn; lia).
  exact (proj1 (proj2 (proj2 (names_exactly_n ["L1"; "L2"] 3 "Branch")) H)).
Defined.

Lemma names_length (attr : list string) (n : nat) (prefix : string) :
  List.length (names attr n prefix) = n.
Proof.
  unfold names.
  destruct ((match attr with [] => true | _ => false end)
            || (List.length attr <? n)%nat) eqn:E.
  - rewrite firstn_all2 by (rewrite numbered_length; lia).
    apply numbered_length.
  - apply Bool.orb_false_iff in E as [_ E]. apply Nat.ltb_ge in E.
    rewrite length_firstn. lia.
Qed.

(** X18.  The bus names are treated differently from the branch and HVDC
    names: recorded names are never padded.  With at least one recorded
    name the bus sheets get the first [nb] of them; when fewer names than
    buses are recorded, the bus sheets are left with fewer names than
    buses, where [_names] would have given [nb] default names.  Only with
    no recorded name at all do the buses get [Bus1 ... Busnb]. *)
Theorem bus_names_not_padded (given : list string) (nb : nat) :
  (given <> [] ->
   bus_names given nb = firstn nb given
   /\ List.length (bus_names given nb) = Nat.min nb (List.length given)
   /\ ((List.length given < nb)%nat ->
       (List.length (bus_names given nb) < nb)%nat
       /\ List.length (names given nb "Bus") = nb
       /\ names given nb "Bus" = numbered "Bus" nb))
  /\ (given = [] ->
      bus_names given nb = numbered "Bus" nb
      /\ List.length (bus_names given nb) = nb).
Proof.
  split.
  - intros Hne. destruct given as [|a given]; [contradiction|].
    cbn [bus_names]. split; [reflexivity|].
    split; [apply length_firstn|]. intros Hlt.
    split; [rewrite length_firstn; lia|].
    split; [apply names_length|].
    unfold names. cbn [orb].
    replace (List.length (a :: given) <? nb)%nat with true
      by (symmetry; apply Nat.ltb_lt; exact Hlt).
    apply firstn_all2. rewrite numbered_length. lia.
  - intros ->. cbn [bus_names]. split; [reflexivity | apply numbered_length].
Qed.

Lemma bus_names_not_padded_witness :
  bus_names ["B1"; "B2"] 3 = ["B1"; "B2"]
  /\ List.length (bus_names ["B1"; "B2"] 3) = 2%nat.
Proof.
  destruct (proj1 (bus_names_not_padded ["B1"; "B2"] 3)) as (H1 & H2 & _).
  - discriminate.
  - split; [exact H1 | exact H2].
Defined.

End NamingExtras.


(** * Properties of [map_data_to_grid_model] *)

Module MappingExtras.
Import Scaler ScalerFacts Mapping Examples Scenarios.
Open Scope string_scope.

Lemma map_load_name (sc : scaled) (q1 q2 : option (list F)) (ld : load) :
  ld_name (map_load sc q1 q2 ld) = ld_name ld.
Proof.
  unfold map_load.
  destruct (String.eqb (ld_name ld) "7_1"); cbn [set_load_profiles ld_name];
    destruct (String.eqb (ld_name ld) "9_1"); reflexivity.
Qed.

Lemma map_load_7 (sc : scaled) (q1 q2 : option (list F)) (ld : load) :
  ld_name ld = "7_1" ->
  map_load sc q1 q2 ld = set_load_profiles (scaled_load1 sc) q1 ld.
Proof.
  intros E. unfold map_load. rewrite E.
  change ("7_1" =? "7_1") with true. cbv iota.
  cbn [set_load_profiles ld_name]. now rewrite E.
Qed.

Lemma map_load_9 (sc : scaled) (q1 q2 : option (list F)) (ld : load) :
  ld_name ld = "9_1" ->
  map_load sc q1 q2 ld = set_load_profiles (scaled_load2 sc) q2 ld.
Proof.
  intros E. unfold map_load. rewrite E.
  change ("9_1" =? "7_1") with false. cbv iota. now rewrite E.
Qed.

Lemma map_load_other (sc : scaled) (q1 q2 : option (list F)) (ld : load) :
  ld_name ld <> "7_1" -> ld_name ld <> "9_1" -> map_load sc q1 q2 ld = ld.
Proof.
  intros H7 H9. unfold map_load.
  apply String.eqb_neq in H7. rewrite H7.
  apply String.eqb_neq in H9. now rewrite H9.
Qed.

Lemma map_generator_name (sc : scaled) (x : generator) :
  g_name (map_generator sc x) = g_name x.
Proof. unfold map_generator. now destruct (generator_series sc (g_name x)). Qed.

Lemma map_generator_series (sc : scaled) (x : generator) (P : list F) :
  generator_series sc (g_name x) = Some P -> g_P_prof (map_generator sc x) = P.
Proof. intros E. unfold map_generator. now rewrite E. Qed.

Section Map.
Variable format_profiles : nat -> grid -> grid.

(** A load of the mapped grid comes from a load of the same name. *)
Lemma mapped_load_origin (g : grid) (sc : scaled) (q1 q2 : option (list F))
      (ld : load) :
  In ld (get_loads (map_data_to_grid_model format_profiles g sc q1 q2)) ->
  exists ld0,
    In ld0 (get_loads (format_profiles (List.length (time sc)) g))
    /\ ld = map_load sc q1 q2 ld0
    /\ ld_name ld0 = ld_name ld.
Proof.
  unfold map_data_to_grid_model. cbn [get_loads]. intros H.
  apply in_map_iff in H as (ld0 & <- & Hin).
  exists ld0. split; [exact Hin|]. split; [reflexivity|].
  now rewrite map_load_name.
Qed.

Lemma mapped_generator_origin (g : grid) (sc : scaled) (q1 q2 : option (list F))
      (x : generator) :
  In x (get_generators (map_data_to_grid_model format_profiles g sc q1 q2)) ->
  exists x0,
    In x0 (get_generators (format_profiles (List.length (time sc)) g))
    /\ x = map_generator sc x0
    /\ g_name x0 = g_name x.
Proof.
  unfold map_data_to_grid_model. cbn [get_generators]. intros H.
  apply in_map_iff in H as (x0 & <- & Hin).
  exists x0. split; [exact Hin|]. split; [reflexivity|].
  now rewrite map_generator_name.
Qed.

(** X19.  Every load named 7_1 of the mapped grid carries [scaled_load1]
    as active profile and every load named 9_1 carries [scaled_load2];
    every generator named 1_1, 2_1, 3_1, 4_1 carries G1, G2, G3, G4.  With
    the output of [scale_down] the written profiles therefore balance: at
    a timestep with finite values the four generator profiles add up to
    the two load profiles. *)
Theorem mapped_profiles_balance
        (g : grid) (d : day) (ext : Prober.extremes) (out : scaled)
        (q1 q2 : option (list F))
        (l7 l9 : load) (x1 x2 x3 x4 : generator) (t : nat) (l1 l2 f m : Q) :
  scale_down d ext = Ok out ->
  let G := map_data_to_grid_model format_profiles g out q1 q2 in
  In l7 (get_loads G) -> ld_name l7 = "7_1" ->
  In l9 (get_loads G) -> ld_name l9 = "9_1" ->
  In x1 (get_generators G) -> g_name x1 = "1_1" ->
  In x2 (get_generators G) -> g_name x2 = "2_1" ->
  In x3 (get_generators G) -> g_name x3 = "3_1" ->
  In x4 (get_generators G) -> g_name x4 = "4_1" ->
  nth_error (load1 d) t = Some l1 ->
  nth_error (load2 d) t = Some l2 ->
  nth_error (hourly_flow d) t = Some f ->
  np_max (load1 d) = Ok m ->
  ~ m == 0 -> ~ l1 == 0 -> ~ l2 == 0 ->
  ld_P_prof l7 = scaled_load1 out
  /\ ld_P_prof l9 = scaled_load2 out
  /\ g_P_prof x1 = scaled_G1 out
  /\ g_P_prof x2 = scaled_G2 out
  /\ g_P_prof x3 = scaled_G3 out
  /\ g_P_prof x4 = scaled_G4 out
  /\ exists p7 p9 a1 a2 a3 a4,
      nth_error (ld_P_prof l7) t = Some (fin p7)
      /\ nth_error (ld_P_prof l9) t = Some (fin p9)
      /\ nth_error (g_P_prof x1) t = Some (fin a1)
      /\ nth_error (g_P_prof x2) t = Some (fin a2)
      /\ nth_error (g_P_prof x3) t = Some (fin a3)
      /\ nth_error (g_P_prof x4) t = Some (fin a4)
      /\ a1 + a2 + a3 + a4 == p7 + p9.
Proof.
  intros Hrun G H7 N7 H9 N9 I1 N1 I2 N2 I3 N3 I4 N4 E1 E2 Ef Hmax Hm Hl1 Hl2.
  assert (P7 : ld_P_prof l7 = scaled_load1 out).
  { destruct (mapped_load_origin _ _ _ _ _ H7) as (l0 & _ & -> & E).
    rewrite N7 in E. now rewrite (map_load_7 _ _ _ _ E). }
  assert (P9 : ld_P_prof l9 = scaled_load2 out).
  { destruct (mapped_load_origin _ _ _ _ _ H9) as (l0 & _ & -> & E).
    rewrite N9 in E. now rewrite (map_load_9 _ _ _ _ E). }
  assert (A1 : g_P_prof x1 = scaled_G1 out).
  { destruct (mapped_generator_origin _ _ _ _ _ I1) as (x0 & _ & -> & E).
    rewrite N1 in E. apply map_generator_series.
    unfold generator_series. now rewrite E. }
  assert (A2 : g_P_prof x2 = scaled_G2 out).
  { destruct (mapped_generator_origin _ _ _ _ _ I2) as (x0 & _ & -> & E).
    rewrite N2 in E. apply map_generator_series.
    unfold generator_series. now rewrite E. }
  assert (A3 : g_P_prof x3 = scaled_G3 out).
  { destruct (mapped_generator_origin _ _ _ _ _ I3) as (x0 & _ & -> & E).
    rewrite N3 in E. apply map_generator_series.
    unfold generator_series. now rewrite E. }
  assert (A4 : g_P_prof x4 = scaled_G4 out).
  { destruct (mapped_generator_origin _ _ _ _ _ I4) as (x0 & _ & -> & E).
    rewrite N4 in E. apply map_generator_series.
    unfold generator_series. now rewrite E. }
  do 6 (split; [assumption|]).
  rewrite P7, P9, A1, A2, A3, A4.
  destruct (scale_down_at d ext out t l1 l2 f Hrun E1 E2 Ef)
    as (pts & c & m' & _ & _ & Hmax' & Hs1 & Hs2 & Hg1 & Hg2 & Hg3 & Hg4 & _).
  rewrite Hmax in Hmax'. injection Hmax' as <-.
  destruct (timestep_finite c m l1 l2 f Hm Hl1 Hl2)
    as (Es1 & Es2 & _ & _ & Eg1 & Eg3 & Eg4 & Eg2).
  rewrite Es1 in Hs1. rewrite Es2 in Hs2. rewrite Eg1 in Hg1.
  rewrite Eg2 in Hg2. rewrite Eg3 in Hg3. rewrite Eg4 in Hg4.
  do 6 eexists.
  do 6 (split; [eassumption|]).
  ring.
Qed.

(** X20.  The reactive profile keeps the power factor of the base case.
    When the dictionary has no reactive series for a load named 7_1, its
    reactive profile is as long as [scaled_load1], non-finite exactly where
    that is, and otherwise [Q / max(P, 1e-12)] times the active sample: the
    divisor is positive, so nothing is divided by 0, and for a base load
    [P >= 1e-12] reactive and active profile are in the ratio [Q : P]. *)
Theorem reactive_profile_ratio
        (g : grid) (sc : scaled) (q2 : option (list F)) (ld : load) :
  In ld (get_loads (map_data_to_grid_model format_profiles g sc None q2)) ->
  ld_name ld = "7_1" ->
  0 < Qmax (ld_P ld) tiny
  /\ List.length (ld_Q_prof ld) = List.length (scaled_load1 sc)
  /\ (forall t, nth_error (scaled_load1 sc) t = Some None ->
                nth_error (ld_Q_prof ld) t = Some None)
  /\ (forall t p,
         nth_error (scaled_load1 sc) t = Some (fin p) ->
         exists q,
           nth_error (ld_Q_prof ld) t = Some (fin q)
           /\ q * Qmax (ld_P ld) tiny == ld_Q ld * p
           /\ (tiny <= ld_P ld -> q * ld_P ld == ld_Q ld * p)).
Proof.
  intros Hin Hname.
  destruct (mapped_load_origin _ _ _ _ _ Hin) as (l0 & _ & -> & E).
  rewrite Hname in E. rewrite (map_load_7 _ _ _ _ E).
  cbn [set_load_profiles ld_P ld_Q ld_Q_prof].
  assert (Hpos : 0 < Qmax (ld_P l0) tiny).
  { unfold Qmax. destruct (Qle_bool (ld_P l0) tiny) eqn:Ele; [reflexivity|].
    destruct (Qlt_le_dec tiny (ld_P l0)) as [H|H].
    - assert (0 < tiny) by reflexivity. lra.
    - apply Qle_bool_iff in H. congruence. }
  split; [exact Hpos|]. unfold reactive_profile.
  split; [apply length_map|]. split.
  - intros t Ht. rewrite nth_error_map, Ht. reflexivity.
  - intros t p Ht. rewrite nth_error_map, Ht. cbn [option_map].
    rewrite Fmul_fin. eexists. split; [reflexivity|]. split.
    + field. lra.
    + intros Hge.
      assert (Emax : Qmax (ld_P l0) tiny == ld_P l0).
      { unfold Qmax. destruct (Qle_bool (ld_P l0) tiny) eqn:Ele; [|reflexivity].
        apply Qle_bool_iff in Ele. lra. }
      rewrite Emax. field. assert (0 < tiny) by reflexivity. lra.
Qed.

(** X21.  The mapping goes by name and never fails on a missing name: the
    loads and generators of the mapped grid have the names, in the order,
    that [format_profiles] left; a load named neither 7_1 nor 9_1 and a
    generator named none of 1_1 ... 4_1 is kept unchanged, so a series
    whose device is missing is dropped without an error. *)
Theorem mapping_by_name
        (g : grid) (sc : scaled) (q1 q2 : option (list F)) :
  let g0 := format_profiles (List.length (time sc)) g in
  let G := map_data_to_grid_model format_profiles g sc q1 q2 in
  map ld_name (get_loads G) = map ld_name (get_loads g0)
  /\ map g_name (get_generators G) = map g_name (get_generators g0)
  /\ ((forall ld, In ld (get_loads g0) ->
                  ld_name ld <> "7_1" /\ ld_name ld <> "9_1") ->
      get_loads G = get_loads g0)
  /\ ((forall x, In x (get_generators g0) ->
                 generator_series sc (g_name x) = None) ->
      get_generators G = get_generators g0).
Proof.
  cbv zeta. unfold map_data_to_grid_model. cbn [get_loads get_generators].
  set (g0 := format_profiles (List.length (time sc)) g).
  split; [|split; [|split]].
  - rewrite map_map. apply map_ext. intros ld. apply map_load_name.
  - rewrite map_map. apply map_ext. intros x. apply map_generator_name.
  - intros H. rewrite <- (map_id (get_loads g0)) at 2.
    apply map_ext_in. intros ld Hin. destruct (H ld Hin).
    now apply map_load_other.
  - intros H. rewrite <- (map_id (get_generators g0)) at 2.
    apply map_ext_in. intros x Hin. unfold map_generator. now rewrite (H x Hin).
Qed.

(** X22.  Every branch and every HVDC link gets profiles with one entry
    per time stamp of the dictionary, whatever the lengths of the load and
    generator series are.  Branch [i] (from 0) is rated 230 for
    [2 <= i <= 5] and 1000 otherwise, also beyond the twelve tabulated
    branches; an HVDC link is set to 200 with rating 600. *)
Theorem rating_profiles
        (g : grid) (sc : scaled) (q1 q2 : option (list F)) :
  let T := List.length (time sc) in
  let G := map_data_to_grid_model format_profiles g sc q1 q2 in
  List.length (get_branches G)
  = List.length (get_branches (format_profiles T g))
  /\ (forall i br,
         nth_error (get_branches G) i = Some br ->
         br_rate_prof br
         = repeat (if (2 <=? i)%nat && (i <=? 5)%nat then 230 else 1000) T
         /\ List.length (br_rate_prof br) = T)
  /\ (forall h,
         In h (get_hvdc G) ->
         hv_Pset_prof h = repeat 200 T /\ hv_rate_prof h = repeat 600 T
         /\ List.length (hv_Pset_prof h) = T
         /\ List.length (hv_rate_prof h) = T).
Proof.
  cbv zeta. unfold map_data_to_grid_model. cbn [get_branches get_hvdc].
  set (T := List.length (time sc)). set (g0 := format_profiles T g).
  split; [|split].
  - rewrite length_map, length_combine, length_seq. lia.
  - intros i br H.
    rewrite nth_error_map in H.
    destruct (nth_error (combine (seq 0 (List.length (get_branches g0)))
                                 (get_branches g0)) i) as [[j b]|] eqn:E;
      [|discriminate].
    cbn [option_map] in H. injection H as <-.
    assert (Hj : j = i).
    { pose proof (nth_error_zip (seq 0 (List.length (get_branches g0)))
                                (get_branches g0) i) as Hz.
      unfold zip in Hz. rewrite E in Hz. rewrite nth_error_seq in Hz.
      destruct (i <? List.length (get_branches g0))%nat; [|discriminate].
      destruct (nth_error (get_branches g0) i); [|discriminate].
      now injection Hz. }
    subst j. unfold map_branch. cbn [br_rate_prof]. unfold np_full.
    split; [|apply repeat_length].
    f_equal.
    do 12 (destruct i as [|i]; [reflexivity|]).
    cbn [arr nth_error]. destruct i; reflexivity.
  - intros h Hin. apply in_map_iff in Hin as (h0 & <- & _).
    unfold map_hvdc, np_full. cbn [hv_Pset_prof hv_rate_prof].
    repeat split; apply repeat_length.
Qed.

End Map.

Lemma mapped_profiles_balance_witness :
  exists out p7 p9 a1 a2 a3 a4,
    scale_down day0 extremes0 = Ok out
    /\ nth_error (scaled_load1 out) 1 = Some (fin p7)
    /\ nth_error (scaled_load2 out) 1 = Some (fin p9)
    /\ nth_error (scaled_G1 out) 1 = Some (fin a1)
    /\ nth_error (scaled_G2 out) 1 = Some (fin a2)
    /\ nth_error (scaled_G3 out) 1 = Some (fin a3)
    /\ nth_error (scaled_G4 out) 1 = Some (fin a4)
    /\ a1 + a2 + a3 + a4 == p7 + p9.
Proof.
  destruct (scale_down day0 extremes0) as [out|e] eqn:E;
    [|vm_compute in E; discriminate].
  assert (N40 : ~ 40 == 0) by (intros H; vm_compute in H; discriminate).
  assert (N20 : ~ 20 == 0) by (intros H; vm_compute in H; discriminate).
  destruct (mapped_profiles_balance
              (fun _ g => g) mapped_grid0 day0 extremes0 out None None
              (map_load out None None (mkLoad "7_1" 967 100 [] []))
              (map_load out None None (mkLoad "9_1" 1767 100 [] []))
              (map_generator out (mkGen "1_1" []))
              (map_generator out (mkGen "2_1" []))
              (map_generator out (mkGen "3_1" []))
              (map_generator out (mkGen "4_1" []))
              1%nat 20 20 1 40 E)
    as (_ & _ & _ & _ & _ & _ & p7 & p9 & a1 & a2 & a3 & a4 & H);
    try reflexivity; try assumption;
    try (cbn; tauto).
  exists out, p7, p9, a1, a2, a3, a4. split; [reflexivity | exact H].
Defined.

Lemma reactive_profile_ratio_witness :
  let sc := mkScaled [fin 5; None] [fin 7] [] [] [] [] ["00:00"] [] in
  let ld := map_load sc None None (mkLoad "7_1" 967 100 [] []) in
  0 < Qmax (ld_P ld) tiny
  /\ List.length (ld_Q_prof ld) = 2%nat
  /\ nth_error (ld_Q_prof ld) 1 = Some None.
Proof.
  cbv zeta.
  destruct (reactive_profile_ratio
              (fun _ g => g) mapped_grid0
              (mkScaled [fin 5; None] [fin 7] [] [] [] [] ["00:00"] []) None
              (map_load (mkScaled [fin 5; None] [fin 7] [] [] [] [] ["00:00"] [])
                        None None (mkLoad "7_1" 967 100 [] [])))
    as (Hpos & Hlen & Hnan & _).
  - left. reflexivity.
  - reflexivity.
  - split; [exact Hpos|]. split; [exact Hlen|]. apply Hnan. reflexivity.
Defined.

Lemma mapping_by_name_witness :
  let g := mkGrid [mkLoad "8_1" 1 1 [fin 1] [fin 1]] [mkGen "9_9" [fin 2]] [] [] in
  let sc := mkScaled [fin 5] [fin 7] [fin 1] [fin 2] [fin 3] [fin 6] ["00:00"] [] in
  get_loads (map_data_to_grid_model (fun _ g => g) g sc None None) = get_loads g.
Proof.
  cbv zeta.
  apply (proj1 (proj2 (proj2 (mapping_by_name
    (fun _ g => g)
    (mkGrid [mkLoad "8_1" 1 1 [fin 1] [fin 1]] [mkGen "9_9" [fin 2]] [] [])
    (mkScaled [fin 5] [fin 7] [fin 1] [fin 2] [fin 3] [fin 6] ["00:00"] [])
    None None)))).
  intros ld [<-|[]]. split; discriminate.
Defined.

Lemma rating_profiles_witness :
  exists br,
    nth_error (get_branches
                 (map_data_to_grid_model
                    (fun _ g => g) mapped_grid0
                    (mkScaled [] [] [] [] [] [] ["00:00"; "01:00"] []) None None))
              1 = Some br
    /\ br_rate_prof br = [1000; 1000].
Proof.
  eexists. split; [reflexivity|].
  apply (proj1 (proj2 (rating_profiles
    (fun _ g => g) mapped_grid0
    (mkScaled [] [] [] [] [] [] ["00:00"; "01:00"] []) None None)) 1%nat).
  reflexivity.
Defined.

End MappingExtras.


(** * The name of the workbook *)

Module PipelineExtras.
Import Pipeline.
Open Scope string_scope.

Lemma list_ascii_app (a b : string) :
  list_ascii_of_string (a ++ b)
  = (list_ascii_of_string a ++ list_ascii_of_string b)%list.
Proof. induction a as [|c a IH]; cbn; [reflexivity | now rewrite IH]. Qed.

Lemma string_app_assoc (a b c : string) : (a ++ b) ++ c = a ++ (b ++ c).
Proof. induction a as [|x a IH]; cbn; [reflexivity | now rewrite IH]. Qed.

Lemma replace_char_app (old new : ascii) (a b : string) :
  replace_char old new (a ++ b) = replace_char old new a ++ replace_char old new b.
Proof. induction a as [|c a IH]; cbn; [reflexivity | now rewrite IH]. Qed.

Lemma replace_char_absent (old new : ascii) (s : string) :
  ~ In old (list_ascii_of_string s) -> replace_char old new s = s.
Proof.
  induction s as [|c s IH]; cbn; [reflexivity|]. intros H.
  destruct (Ascii.eqb c old) eqn:E.
  - apply Ascii.eqb_eq in E. exfalso. apply H. now left.
  - rewrite IH; [reflexivity|]. intros Hin. apply H. now right.
Qed.

Lemma replace_char_gone (old new : ascii) (s : string) :
  new <> old -> ~ In old (list_ascii_of_string (replace_char old new s)).
Proof.
  intros Hne. induction s as [|c s IH]; cbn; [tauto|].
  intros [H|H]; [|now apply IH].
  destruct (Ascii.eqb c old) eqn:E; [contradiction|].
  apply Ascii.eqb_neq in E. contradiction.
Qed.

Lemma replace_char_length (old new : ascii) (s : string) :
  String.length (replace_char old new s) = String.length s.
Proof. induction s as [|c s IH]; cbn; [reflexivity | now rewrite IH]. Qed.

(** X23.  The workbook of the full pipeline is named after the date as it
    was given: for a date [MM-DD-YYYY] the name is [ghds_MM_DD_YYYY.xlsx],
    month first.  Whatever the date string is, the name holds no hyphen
    and is ten characters longer than the date. *)
Theorem final_name_keeps_order (mm dd yyyy : string) :
  ~ In "-"%char (list_ascii_of_string mm) ->
  ~ In "-"%char (list_ascii_of_string dd) ->
  ~ In "-"%char (list_ascii_of_string yyyy) ->
  final_name (mm ++ "-" ++ dd ++ "-" ++ yyyy)
  = "ghds_" ++ mm ++ "_" ++ dd ++ "_" ++ yyyy ++ ".xlsx"
  /\ (forall date,
         ~ In "-"%char (list_ascii_of_string (final_name date))
         /\ String.length (final_name date) = (String.length date + 10)%nat).
Proof.
  intros Hm Hd Hy. split.
  - unfold final_name. rewrite !replace_char_app.
    rewrite (replace_char_absent _ _ mm Hm), (replace_char_absent _ _ dd Hd),
      (replace_char_absent _ _ yyyy Hy).
    cbn [replace_char Ascii.eqb Bool.eqb].
    rewrite !string_app_assoc. reflexivity.
  - intros date. unfold final_name. split.
    + rewrite !list_ascii_app, !in_app_iff. intros [H|[H|H]].
      * cbn in H. intuition discriminate.
      * revert H. apply replace_char_gone. discriminate.
      * cbn in H. intuition discriminate.
    + rewrite !NamingExtras.length_append, replace_char_length. cbn. lia.
Qed.

Lemma final_name_keeps_order_witness :
  final_name "02-14-2024" = "ghds_02_14_2024.xlsx".
Proof.
  apply (proj1 (final_name_keeps_order "02" "14" "2024"
    ltac:(cbn; intuition discriminate)
    ltac:(cbn; intuition discriminate)
    ltac:(cbn; intuition discriminate))).
Defined.

End PipelineExtras.
